(** * EIP-7702 examples: the authorization token and the transaction builders

    Part I embeds the Solidity contract [AuthorizationERC20Delegation]
    (scripts/deployAuthorizationERC20Delegation.js, second document) as
    functions in a state-and-revert monad over the contract storage.
    Part II embeds the three scripts that build a type-0x04 transaction
    (executeERC20Transfer.js and its two siblings) over a model of the
    few [ethers] helpers they call. *)

From Stdlib Require Import ZArith Lia.
From stdpp Require Import base option list gmap strings.

Local Open Scope Z_scope.

(** ** Machine integers and byte strings *)

(** [uint256], [address] (160 bits) and [bytes32] values are integers in
    range; a byte string is a list of octets. *)
Definition MAX_UINT256 : Z := 2 ^ 256 - 1.
Definition is_uint256 (v : Z) : Prop := 0 <= v <= MAX_UINT256.
Definition wrap256 (v : Z) : Z := v mod 2 ^ 256.

Abbreviation bytes := (list Z).

(** Big-endian encoding on exactly [n] octets. *)
Fixpoint be_fixed (n : nat) (v : Z) : bytes :=
  match n with
  | O => []
  | S n' => be_fixed n' (v / 256) ++ [v mod 256]
  end.

(** The integer a big-endian byte string denotes. *)
Definition be_value (b : bytes) : Z :=
  fold_left (fun acc x => acc * 256 + x) b 0.

Definition bytes_of_string (s : string) : bytes :=
  (fun a => Z.of_nat (Ascii.nat_of_ascii a)) <$> String.list_ascii_of_string s.

(** ** Part I: AuthorizationERC20Delegation *)

Module Token.

Inductive AuthorizationState := Unused | Used | Canceled.

#[global] Instance AuthorizationState_eq_dec : EqDecision AuthorizationState.
Proof. solve_decision. Defined.

Inductive Event :=
| Transfer (from to value : Z)
| Approval (owner spender value : Z)
| AuthorizationUsed (authorizer nonce : Z)
| AuthorizationCanceled (authorizer nonce : Z).

(** Contract storage, plus the log of emitted events. A Solidity mapping
    is a finite map read with the type's zero value as default. *)
Record Storage := mkStorage {
  name : string;
  symbol : string;
  decimals : Z;
  totalSupply : Z;
  balanceOf : gmap Z Z;
  allowance : gmap (Z * Z) Z;
  authorizationState : gmap Z AuthorizationState;
  DOMAIN_SEPARATOR : Z;
  events : list Event
}.

Definition balance (s : Storage) (a : Z) : Z := default 0 (balanceOf s !! a).
Definition allowed_of (s : Storage) (o sp : Z) : Z :=
  default 0 (allowance s !! (o, sp)).
Definition auth_state (s : Storage) (k : Z) : AuthorizationState :=
  default Unused (authorizationState s !! k).

Definition set_totalSupply (v : Z) (s : Storage) : Storage :=
  mkStorage (name s) (symbol s) (decimals s) v (balanceOf s) (allowance s)
            (authorizationState s) (DOMAIN_SEPARATOR s) (events s).
Definition set_balance (a v : Z) (s : Storage) : Storage :=
  mkStorage (name s) (symbol s) (decimals s) (totalSupply s)
            (<[a := v]> (balanceOf s)) (allowance s)
            (authorizationState s) (DOMAIN_SEPARATOR s) (events s).
Definition set_allowance (o sp v : Z) (s : Storage) : Storage :=
  mkStorage (name s) (symbol s) (decimals s) (totalSupply s)
            (balanceOf s) (<[(o, sp) := v]> (allowance s))
            (authorizationState s) (DOMAIN_SEPARATOR s) (events s).
Definition set_auth_state (k : Z) (v : AuthorizationState) (s : Storage)
  : Storage :=
  mkStorage (name s) (symbol s) (decimals s) (totalSupply s)
            (balanceOf s) (allowance s)
            (<[k := v]> (authorizationState s)) (DOMAIN_SEPARATOR s)
            (events s).
Definition log (e : Event) (s : Storage) : Storage :=
  mkStorage (name s) (symbol s) (decimals s) (totalSupply s)
            (balanceOf s) (allowance s)
            (authorizationState s) (DOMAIN_SEPARATOR s) (events s ++ [e]).

(** What the call sees of its transaction and block. *)
Record Env := mkEnv {
  msg_sender : Z;
  block_timestamp : Z;
  this : Z;
  chainid : Z
}.

(** A failed [require] carries its reason string; checked arithmetic
    fails with a panic code. *)
Inductive Revert := Error (reason : string) | Panic (code : Z).

(** Contract code: a state transformer that may revert. *)
Definition Sol (A : Type) : Type := Storage -> Revert + (A * Storage).

Definition ret {A} (a : A) : Sol A := fun s => inr (a, s).
Definition bind {A B} (m : Sol A) (k : A -> Sol B) : Sol B :=
  fun s => match m s with
           | inl e => inl e
           | inr (a, s') => k a s'
           end.
Definition revert {A} (e : Revert) : Sol A := fun _ => inl e.
Definition require (b : bool) (reason : string) : Sol unit :=
  if b then ret tt else revert (Error reason).
Definition sload {A} (f : Storage -> A) : Sol A := fun s => inr (f s, s).
Definition sstore (f : Storage -> Storage) : Sol unit :=
  fun s => inr (tt, f s).
Definition emit (e : Event) : Sol unit := sstore (log e).

Declare Scope sol_scope.
Delimit Scope sol_scope with sol.
Notation "x <- m ;; k" := (bind m (fun x => k))
  (at level 100, m at level 99, k at level 200, right associativity,
   only parsing) : sol_scope.
Notation "m ;; k" := (bind m (fun _ => k))
  (at level 100, k at level 200, right associativity,
   only parsing) : sol_scope.

(** Checked arithmetic of Solidity 0.8 and its [unchecked] counterpart. *)
Definition checked_add (a b : Z) : Sol Z :=
  if a + b <=? MAX_UINT256 then ret (a + b) else revert (Panic 17).
Definition checked_sub (a b : Z) : Sol Z :=
  if b <=? a then ret (a - b) else revert (Panic 17).

(** The state a transaction leaves behind: a revert rolls every write of
    the call back. *)
Definition commit {A} (m : Sol A) (s : Storage) : Storage :=
  match m s with
  | inl _ => s
  | inr (_, s') => s'
  end.

Definition succeeds {A} (m : Sol A) (s : Storage) : Prop :=
  exists a s', m s = inr (a, s').
Definition fails_with {A} (m : Sol A) (s : Storage) (reason : string) : Prop :=
  m s = inl (Error reason).

(** The two primitives the contract takes from the EVM. [ecrecover]
    returns the zero address when recovery fails. *)
Class Precompiles := {
  keccak256 : bytes -> Z;
  ecrecover : Z -> Z -> Z -> Z -> Z
}.

Section Contract.
Context `{Precompiles}.
Local Open Scope sol_scope.

(** [abi.encode] of static words: 32 big-endian octets each. *)
Definition abi_encode (ws : list Z) : bytes :=
  concat (be_fixed 32 <$> ws).

Definition _EIP712_DOMAIN_TYPEHASH : Z :=
  keccak256 (bytes_of_string
    "EIP712Domain(string name,string version,uint256 chainId,address verifyingContract)").
Definition TRANSFER_WITH_AUTHORIZATION_TYPEHASH : Z :=
  keccak256 (bytes_of_string
    "TransferWithAuthorization(address from,address to,uint256 value,uint256 validAfter,uint256 validBefore,bytes32 nonce)").
Definition CANCEL_AUTHORIZATION_TYPEHASH : Z :=
  keccak256 (bytes_of_string
    "CancelAuthorization(address authorizer,bytes32 nonce)").

Definition _mint (to value : Z) : Sol unit :=
  ts <- sload totalSupply ;;
  ts' <- checked_add ts value ;;
  sstore (set_totalSupply ts') ;;
  b <- sload (fun s => balance s to) ;;
  b' <- checked_add b value ;;
  sstore (set_balance to b') ;;
  emit (Transfer 0 to value).

(** Storage before the constructor body runs: everything zero. *)
Definition empty_storage : Storage :=
  mkStorage EmptyString EmptyString 0 0 ∅ ∅ ∅ 0 [].

Definition constructor (env : Env) (_name _symbol : string)
    (_decimals _initialSupply : Z) : Sol unit :=
  sstore (fun s =>
    mkStorage _name _symbol _decimals (totalSupply s)
      (balanceOf s) (allowance s) (authorizationState s)
      (keccak256 (abi_encode
         [_EIP712_DOMAIN_TYPEHASH;
          keccak256 (bytes_of_string _name);
          keccak256 (bytes_of_string "1");
          chainid env;
          this env]))
      (events s)) ;;
  _mint (msg_sender env) _initialSupply.

Definition _transfer (from to value : Z) : Sol unit :=
  b <- sload (fun s => balance s from) ;;
  require (value <=? b) "BALANCE" ;;
  bf <- sload (fun s => balance s from) ;;
  sstore (set_balance from (wrap256 (bf - value))) ;;
  bt <- sload (fun s => balance s to) ;;
  sstore (set_balance to (wrap256 (bt + value))) ;;
  emit (Transfer from to value).

Definition transfer (env : Env) (to value : Z) : Sol bool :=
  _transfer (msg_sender env) to value ;;
  ret true.

Definition approve (env : Env) (spender value : Z) : Sol bool :=
  sstore (set_allowance (msg_sender env) spender value) ;;
  emit (Approval (msg_sender env) spender value) ;;
  ret true.

Definition transferFrom (env : Env) (from to value : Z) : Sol bool :=
  allowed <- sload (fun s => allowed_of s from (msg_sender env)) ;;
  require (value <=? allowed) "ALLOWANCE" ;;
  (if bool_decide (allowed <> MAX_UINT256)
   then d <- checked_sub allowed value ;;
        sstore (set_allowance from (msg_sender env) d)
   else ret tt) ;;
  _transfer from to value ;;
  ret true.

(** [abi.encodePacked(authorizer, nonce)]: 20 octets then 32. *)
Definition _authKey (authorizer nonce : Z) : Z :=
  keccak256 (be_fixed 20 authorizer ++ be_fixed 32 nonce).

(** [keccak256(abi.encodePacked("\x19\x01", DOMAIN_SEPARATOR, structHash))]
    for a given separator. *)
Definition typed_message_hash (separator structHash : Z) : Z :=
  keccak256 ([25; 1] ++ be_fixed 32 separator ++ be_fixed 32 structHash).

Definition _toTypedMessageHash (structHash : Z) : Sol Z :=
  separator <- sload DOMAIN_SEPARATOR ;;
  ret (typed_message_hash separator structHash).

Definition _validateAndUse (env : Env)
    (authorizer validAfter validBefore nonce structHash v r s : Z)
  : Sol unit :=
  require (validAfter <? block_timestamp env) "TIME_NOT_YET" ;;
  require (block_timestamp env <? validBefore) "TIME_EXPIRED" ;;
  digest <- _toTypedMessageHash structHash ;;
  let recovered := ecrecover digest v r s in
  require (bool_decide (recovered = authorizer)) "SIG" ;;
  let key := _authKey authorizer nonce in
  st <- sload (fun s => auth_state s key) ;;
  require (bool_decide (st = Unused)) "USED_OR_CANCELLED" ;;
  sstore (set_auth_state key Used) ;;
  emit (AuthorizationUsed authorizer nonce).

Definition transferWithAuthorization (env : Env)
    (from to value validAfter validBefore nonce v r s : Z) : Sol unit :=
  _validateAndUse env from validAfter validBefore nonce
    (keccak256 (abi_encode
       [TRANSFER_WITH_AUTHORIZATION_TYPEHASH; from; to; value;
        validAfter; validBefore; nonce])) v r s ;;
  _transfer from to value.

Definition cancelAuthorization (env : Env) (authorizer nonce v r s : Z)
  : Sol unit :=
  let structHash :=
    keccak256 (abi_encode [CANCEL_AUTHORIZATION_TYPEHASH; authorizer; nonce]) in
  digest <- _toTypedMessageHash structHash ;;
  let recovered := ecrecover digest v r s in
  require (bool_decide (recovered = authorizer)) "SIG" ;;
  let key := _authKey authorizer nonce in
  state <- sload (fun s => auth_state s key) ;;
  require (bool_decide (state = Unused)) "STATE" ;;
  sstore (set_auth_state key Canceled) ;;
  emit (AuthorizationCanceled authorizer nonce).

Definition computeTransferWithAuthorizationDigest
    (from to value validAfter validBefore nonce : Z) : Sol Z :=
  _toTypedMessageHash
    (keccak256 (abi_encode
       [TRANSFER_WITH_AUTHORIZATION_TYPEHASH; from; to; value;
        validAfter; validBefore; nonce])).

Definition computeCancelAuthorizationDigest (authorizer nonce : Z) : Sol Z :=
  _toTypedMessageHash
    (keccak256 (abi_encode [CANCEL_AUTHORIZATION_TYPEHASH; authorizer; nonce])).

(** The external entry points, and the storage a sequence of
    transactions leaves: each call commits or is rolled back whole. *)
Inductive Call :=
| CallTransfer (to value : Z)
| CallApprove (spender value : Z)
| CallTransferFrom (from to value : Z)
| CallTransferWithAuthorization
    (from to value validAfter validBefore nonce v r s : Z)
| CallCancelAuthorization (authorizer nonce v r s : Z).

Definition step (env : Env) (c : Call) (st : Storage) : Storage :=
  match c with
  | CallTransfer to value => commit (transfer env to value) st
  | CallApprove spender value => commit (approve env spender value) st
  | CallTransferFrom from to value =>
      commit (transferFrom env from to value) st
  | CallTransferWithAuthorization from to value va vb nonce v r s =>
      commit (transferWithAuthorization env from to value va vb nonce v r s)
             st
  | CallCancelAuthorization authorizer nonce v r s =>
      commit (cancelAuthorization env authorizer nonce v r s) st
  end.

Fixpoint run (txs : list (Env * Call)) (st : Storage) : Storage :=
  match txs with
  | [] => st
  | (env, c) :: txs' => run txs' (step env c st)
  end.

(** The digest each entry point hands to [ecrecover]. *)
Definition transfer_digest (st : Storage)
    (from to value validAfter validBefore nonce : Z) : Z :=
  typed_message_hash (DOMAIN_SEPARATOR st)
    (keccak256 (abi_encode
       [TRANSFER_WITH_AUTHORIZATION_TYPEHASH; from; to; value;
        validAfter; validBefore; nonce])).

Definition cancel_digest (st : Storage) (authorizer nonce : Z) : Z :=
  typed_message_hash (DOMAIN_SEPARATOR st)
    (keccak256 (abi_encode [CANCEL_AUTHORIZATION_TYPEHASH; authorizer; nonce])).

(** The metadata writes of the constructor. *)
Definition set_metadata (env : Env) (_name _symbol : string) (_decimals : Z)
    (s : Storage) : Storage :=
  mkStorage _name _symbol _decimals (totalSupply s)
    (balanceOf s) (allowance s) (authorizationState s)
    (keccak256 (abi_encode
       [_EIP712_DOMAIN_TYPEHASH;
        keccak256 (bytes_of_string _name);
        keccak256 (bytes_of_string "1");
        chainid env;
        this env]))
    (events s).

(** The storage [_validateAndUse] and [cancelAuthorization] write once
    all their checks have passed. *)
Definition used (authorizer nonce : Z) (st : Storage) : Storage :=
  log (AuthorizationUsed authorizer nonce)
      (set_auth_state (_authKey authorizer nonce) Used st).

Definition canceled (authorizer nonce : Z) (st : Storage) : Storage :=
  log (AuthorizationCanceled authorizer nonce)
      (set_auth_state (_authKey authorizer nonce) Canceled st).

(** The timing failures, as opposed to the signature, record and
    balance failures. *)
Definition timing_condition (reason : string) : Prop :=
  reason = "TIME_NOT_YET" \/ reason = "TIME_EXPIRED".

(** How the record of [(authorizer, nonce)] is consumed: by a successful
    [transferWithAuthorization] (leaving [Used]) or by a successful
    [cancelAuthorization] (leaving [Canceled]). *)
Definition consumes (authorizer nonce : Z) (st st' : Storage)
    (outcome : AuthorizationState) : Prop :=
  (outcome = Used /\
   exists env to value va vb v r s,
     transferWithAuthorization env authorizer to value va vb nonce v r s st
     = inr (tt, st')) \/
  (outcome = Canceled /\
   exists env v r s,
     cancelAuthorization env authorizer nonce v r s st = inr (tt, st')).

End Contract.

(** The ledger invariant: every slot holds a [uint256] and the balances
    add up to the supply. *)
Definition sum_map (m : gmap Z Z) : Z :=
  map_fold (fun _ v acc => v + acc) 0 m.

Definition sum_balances (st : Storage) : Z := sum_map (balanceOf st).

Definition well_typed (st : Storage) : Prop :=
  is_uint256 (totalSupply st) /\
  map_Forall (fun _ v => is_uint256 v) (balanceOf st).

Definition supply_invariant (st : Storage) : Prop :=
  well_typed st /\ sum_balances st = totalSupply st.

(** [value] has moved from [from] to [to] between [st] and [st']: the
    supply and all other balances are as before; a transfer to oneself
    leaves the balance as it was. *)
Definition moved (from to value : Z) (st st' : Storage) : Prop :=
  totalSupply st' = totalSupply st /\
  (from <> to ->
   balance st' from = balance st from - value /\
   balance st' to = balance st to + value) /\
  (from = to -> balance st' from = balance st from) /\
  (forall a, a <> from -> a <> to -> balance st' a = balance st a).

(** The ABI decoder hands the entry points amounts that are [uint256]. *)
Definition call_well_typed (c : Call) : Prop :=
  match c with
  | CallTransfer _ value
  | CallTransferFrom _ _ value
  | CallTransferWithAuthorization _ _ value _ _ _ _ _ _ => is_uint256 value
  | CallApprove _ _ | CallCancelAuthorization _ _ _ _ _ => True
  end.

(** The token metadata, written by the constructor. *)
Definition metadata (st : Storage) : string * string * Z * Z :=
  (name st, symbol st, decimals st, DOMAIN_SEPARATOR st).

(** The storage a deployment leaves. *)
Definition deployed `{Precompiles} (env : Env) (_name _symbol : string)
    (_decimals _initialSupply : Z) : Storage :=
  commit (constructor env _name _symbol _decimals _initialSupply)
         empty_storage.

(** The same call environment under another sender. *)
Definition with_sender (env : Env) (sender : Z) : Env :=
  mkEnv sender (block_timestamp env) (this env) (chainid env).

(** Stand-ins for the two primitives, used to run the contract on
    concrete inputs: the hash is a polynomial in its octets modulo the
    prime 2^255 - 19, and a signature [(v, r, s)] is accepted for digest
    [s] only, naming [r] as the signer. *)
Definition toy_keccak256 (b : bytes) : Z :=
  fold_left (fun acc x => (acc * 257 + x + 1) mod (2 ^ 255 - 19)) b 0.

Definition toy_ecrecover (digest v r s : Z) : Z :=
  if digest =? s then r else 0.

Definition toy : Precompiles :=
  {| keccak256 := toy_keccak256; ecrecover := toy_ecrecover |}.

(** The scenario of the specification run on the stand-ins: account 1
    deploys with a supply of 100 and signs an authorization of 25 for
    account 2, valid from 60 seconds before to one hour after the time
    1000, under nonce 77; account 3 signs a cancellation under nonce 78. *)
Definition scenario_env (now : Z) : Env := mkEnv 1 now 99 5.

Definition scenario_deployed : Storage :=
  commit (@constructor toy (scenario_env 1000) "T" "T" 18 100) empty_storage.

Definition scenario_digest : Z :=
  @transfer_digest toy scenario_deployed 1 2 25 940 4600 77.

Abbreviation scenario_transfer now :=
  (@transferWithAuthorization toy (scenario_env now) 1 2 25 940 4600 77
     27 1 scenario_digest).

Definition scenario_used : Storage :=
  commit (scenario_transfer 1000) scenario_deployed.

Definition scenario_cancel_digest : Z :=
  @cancel_digest toy scenario_deployed 3 78.

Abbreviation scenario_cancel :=
  (@cancelAuthorization toy (scenario_env 1000) 3 78 27 3
     scenario_cancel_digest).

Definition scenario_canceled : Storage :=
  commit scenario_cancel scenario_deployed.

End Token.

(** ** Part II: the transaction builders *)

Module Builder.

(** *** The [ethers] helpers the scripts call

    A hex string of [ethers] (['0x'] followed by an even number of
    digits) is held as the octets it spells: ['0x'] is [[]], ['0x00'] is
    [[0]], ['0x01'] is [[1]]. [concat] is then [++] and [hexlify] the
    identity. *)

(** Minimal big-endian octets of a positive integer, none for zero. *)
Definition be_minimal (v : Z) : bytes :=
  if v <=? 0 then [] else be_fixed (Z.to_nat (Z.log2 v / 8 + 1)) v.

(** The values a script passes where [ethers] takes a [BigNumberish]: a
    JS number holding an integer, a bigint, or [null]. *)
Inductive BigNumberish :=
| JsNumber (n : Z)
| JsBigInt (n : Z)
| JsNull.

Definition MAX_SAFE_INTEGER : Z := 2 ^ 53 - 1.

(** [getUint]: a bigint must not be negative and a number must be a
    safe integer as well; anything else throws. *)
Definition getUint (value : BigNumberish) : option Z :=
  match value with
  | JsBigInt n => if 0 <=? n then Some n else None
  | JsNumber n =>
      if (0 <=? n) && (n <=? MAX_SAFE_INTEGER) then Some n else None
  | JsNull => None
  end.

(** [toBeHex(value)] without a width: the hexadecimal digits of the
    value, with one leading zero digit when their number is odd. Zero has
    the digit [0], hence the single octet [0x00]. *)
Definition toBeHex (value : BigNumberish) : option bytes :=
  v ← getUint value;
  Some (if v =? 0 then [0] else be_minimal v).

(** [a || b] on these values: [null], [0] and [0n] are falsy. *)
Definition js_or (a b : BigNumberish) : BigNumberish :=
  match a with
  | JsNull => b
  | JsNumber n | JsBigInt n => if n =? 0 then b else a
  end.

(** An argument of [encodeRlp]: a hex string or an array of arguments. *)
#[warnings="-register-all"]
Inductive RlpStructuredData :=
| RlpData (data : bytes)
| RlpArray (items : list RlpStructuredData).

Definition arrayifyInteger (value : Z) : bytes := be_minimal value.

Fixpoint _encode (object : RlpStructuredData) : bytes :=
  match object with
  | RlpArray items =>
      let payload :=
        (fix children (l : list RlpStructuredData) : bytes :=
           match l with
           | [] => []
           | child :: l' => _encode child ++ children l'
           end) items in
      let n := Z.of_nat (length payload) in
      if n <=? 55 then (192 + n) :: payload
      else
        let len := arrayifyInteger n in
        (247 + Z.of_nat (length len)) :: len ++ payload
  | RlpData data =>
      let n := Z.of_nat (length data) in
      match data with
      | [b] => if b <=? 127 then data else (128 + n) :: data
      | _ =>
          if n <=? 55 then (128 + n) :: data
          else
            let len := arrayifyInteger n in
            (183 + Z.of_nat (length len)) :: len ++ data
      end
  end.

Definition encodeRlp (object : RlpStructuredData) : bytes := _encode object.

(** A [Signature] holds [r], [s] and [v]; its [yParity] getter is
    [(this.v === 27) ? 0 : 1]. *)
Record Signature := mkSignature {
  r : bytes;
  s : bytes;
  v : Z
}.

Definition yParity (sig : Signature) : Z := if v sig =? 27 then 0 else 1.

(** The cryptography behind a [Wallet]: the hash, the signature of a
    digest under a private key, and the address of a key.
    [signingKey.sign] draws no randomness (its nonce is derived from key
    and digest), so it is a function. *)
Class Ethers := {
  keccak256 : bytes -> bytes;
  sign : bytes -> bytes -> Signature;
  address_of : bytes -> bytes
}.

Record FeeData := mkFeeData {
  maxPriorityFeePerGas : BigNumberish;
  maxFeePerGas : BigNumberish
}.

(** What the scripts read from the network. *)
Record Provider := mkProvider {
  getTransactionCount : bytes -> Z;
  chainId : Z;
  getFeeData : FeeData
}.

(** What a script has computed by the time it sends [signedTx]. *)
Record Built := mkBuilt {
  authorization_chainId : bytes;
  authorization_address : bytes;
  authorization_nonce : bytes;
  authorization_yParity : bytes;
  authorization_r : bytes;
  authorization_s : bytes;
  encodedAuthorizationData : bytes;
  authorizationDataHash : bytes;
  txData : list RlpStructuredData;
  encodedTxData : bytes;
  txDataHash : bytes;
  signedTx : bytes
}.

Section Scripts.
Context `{Ethers}.

(** [sig.yParity === 0 ? '0x' : '0x01'] *)
Definition yParity_hex (sig : Signature) : bytes :=
  if yParity sig =? 0 then [] else [1].

(** scripts/executeERC20Transfer.js: the token holder authorizes, the
    gas payer signs and sends. [calldata] is the encoded call of
    [execute]. *)
Definition executeERC20Transfer
    (tokenHolderPk gasPayerPk BATCH_CALL_DELEGATION_ADDRESS calldata : bytes)
    (provider : Provider) : option Built :=
  let tokenHolder := address_of tokenHolderPk in
  let gasPayer := address_of gasPayerPk in
  let tokenHolderNonce := JsNumber (getTransactionCount provider tokenHolder) in
  let gasPayerNonce := JsNumber (getTransactionCount provider gasPayer) in
  let chainId := JsBigInt (chainId provider) in
  a_chainId ← toBeHex chainId;
  a_nonce ← toBeHex tokenHolderNonce;
  let a_address := BATCH_CALL_DELEGATION_ADDRESS in
  let encodedAuthorizationData :=
    [5] ++ encodeRlp (RlpArray [RlpData a_chainId; RlpData a_address;
                                RlpData a_nonce]) in
  let authorizationDataHash := keccak256 encodedAuthorizationData in
  let authorizationSignature := sign tokenHolderPk authorizationDataHash in
  let a_yParity := yParity_hex authorizationSignature in
  let a_r := r authorizationSignature in
  let a_s := s authorizationSignature in
  let feeData := getFeeData provider in
  tip ← toBeHex (js_or (maxPriorityFeePerGas feeData) (JsBigInt 0));
  let maxPriorityFeePerGas := if bool_decide (tip = [0]) then [] else tip in
  gasLimit ← toBeHex (JsNumber 300000);
  t_chainId ← toBeHex chainId;
  t_nonce ← toBeHex gasPayerNonce;
  t_maxFee ← toBeHex (maxFeePerGas feeData);
  let txData :=
    [RlpData t_chainId;
     RlpData t_nonce;
     RlpData maxPriorityFeePerGas;
     RlpData t_maxFee;
     RlpData gasLimit;
     RlpData tokenHolder;
     RlpData [];
     RlpData calldata;
     RlpArray [];
     RlpArray [RlpArray [RlpData a_chainId; RlpData a_address;
                         RlpData a_nonce; RlpData a_yParity;
                         RlpData a_r; RlpData a_s]]] in
  let encodedTxData := [4] ++ encodeRlp (RlpArray txData) in
  let txDataHash := keccak256 encodedTxData in
  let txSignature := sign gasPayerPk txDataHash in
  let signedTx :=
    [4] ++ encodeRlp (RlpArray (txData ++
             [RlpData (yParity_hex txSignature);
              RlpData (r txSignature);
              RlpData (s txSignature)])) in
  Some (mkBuilt a_chainId a_address a_nonce a_yParity a_r a_s
          encodedAuthorizationData authorizationDataHash
          txData encodedTxData txDataHash signedTx).

(** The two scripts in which one wallet authorizes, signs and sends.
    They differ in the gas limit only (and in how [calldata] was
    made): 10000000 in the first, 1500000 in the second. The transaction
    count is a safe integer, on which [currentNonce + 1] is exact. *)
Definition self_sponsored (gas : Z)
    (PRIVATE_KEY BATCH_CALL_DELEGATION_ADDRESS calldata : bytes)
    (provider : Provider) : option Built :=
  let wallet := address_of PRIVATE_KEY in
  let currentNonce := getTransactionCount provider wallet in
  let chainId := JsBigInt (chainId provider) in
  a_chainId ← toBeHex chainId;
  a_nonce ← toBeHex (JsNumber (currentNonce + 1));
  let a_address := BATCH_CALL_DELEGATION_ADDRESS in
  let encodedAuthorizationData :=
    [5] ++ encodeRlp (RlpArray [RlpData a_chainId; RlpData a_address;
                                RlpData a_nonce]) in
  let authorizationDataHash := keccak256 encodedAuthorizationData in
  let authorizationSignature := sign PRIVATE_KEY authorizationDataHash in
  let a_yParity := yParity_hex authorizationSignature in
  let a_r := r authorizationSignature in
  let a_s := s authorizationSignature in
  let feeData := getFeeData provider in
  tip ← toBeHex (maxPriorityFeePerGas feeData);
  let maxPriorityFeePerGas := if bool_decide (tip = [0]) then [] else tip in
  t_nonce ← toBeHex (JsNumber currentNonce);
  t_maxFee ← toBeHex (maxFeePerGas feeData);
  gasLimit ← toBeHex (JsNumber gas);
  let txData :=
    [RlpData a_chainId;
     RlpData t_nonce;
     RlpData maxPriorityFeePerGas;
     RlpData t_maxFee;
     RlpData gasLimit;
     RlpData wallet;
     RlpData [];
     RlpData calldata;
     RlpArray [];
     RlpArray [RlpArray [RlpData a_chainId; RlpData a_address;
                         RlpData a_nonce; RlpData a_yParity;
                         RlpData a_r; RlpData a_s]]] in
  let encodedTxData := [4] ++ encodeRlp (RlpArray txData) in
  let txDataHash := keccak256 encodedTxData in
  let txSignature := sign PRIVATE_KEY txDataHash in
  let signedTx :=
    [4] ++ encodeRlp (RlpArray (txData ++
             [RlpData (yParity_hex txSignature);
              RlpData (r txSignature);
              RlpData (s txSignature)])) in
  Some (mkBuilt a_chainId a_address a_nonce a_yParity a_r a_s
          encodedAuthorizationData authorizationDataHash
          txData encodedTxData txDataHash signedTx).

(** src/unnamed/part_000 and src/unnamed/part_001. *)
Definition part_000 := self_sponsored 10000000.
Definition part_001 := self_sponsored 1500000.

(** The wire formats in the words of the specification: the field
    sequence in its fixed order, an entry of the authorization list, the
    digest a transaction is signed over, the transmittable octets with
    the signature triple appended, and the payload an authorization is
    signed over. *)
Definition field_sequence
    (chainId nonce maxPriorityFeePerUnit maxFeePerUnit gasLimit to value
     data : bytes)
    (accessList authorizationList : list RlpStructuredData)
  : list RlpStructuredData :=
  [RlpData chainId; RlpData nonce; RlpData maxPriorityFeePerUnit;
   RlpData maxFeePerUnit; RlpData gasLimit; RlpData to; RlpData value;
   RlpData data; RlpArray accessList; RlpArray authorizationList].

Definition authorization_entry (chainId address nonce yParity r s : bytes)
  : RlpStructuredData :=
  RlpArray [RlpData chainId; RlpData address; RlpData nonce;
            RlpData yParity; RlpData r; RlpData s].

Definition TRANSACTION_TYPE : Z := 4.
Definition AUTHORIZATION_MAGIC : Z := 5.

Definition spec_transaction_digest (fields : list RlpStructuredData) : bytes :=
  keccak256 (TRANSACTION_TYPE :: encodeRlp (RlpArray fields)).

Definition spec_signed_transaction (key : bytes)
    (fields : list RlpStructuredData) : bytes :=
  let sig := sign key (spec_transaction_digest fields) in
  TRANSACTION_TYPE ::
  encodeRlp (RlpArray (fields ++
    [RlpData (be_minimal (yParity sig)); RlpData (r sig); RlpData (s sig)])).

Definition spec_authorization_payload (chainId address nonce : bytes)
  : bytes :=
  AUTHORIZATION_MAGIC ::
  encodeRlp (RlpArray [RlpData chainId; RlpData address; RlpData nonce]).

(** What the scripts compute from the hex fields once these are made:
    the authorization signed by [authorizerPk], the field sequence, and
    the transaction signed by [payerPk]. *)
Definition assemble
    (authorizerPk payerPk a_chainId delegate a_nonce
     t_chainId t_nonce tip t_maxFee gasLimit to calldata : bytes) : Built :=
  let payload := spec_authorization_payload a_chainId delegate a_nonce in
  let a_sig := sign authorizerPk (keccak256 payload) in
  let fields :=
    field_sequence t_chainId t_nonce tip t_maxFee gasLimit to [] calldata []
      [authorization_entry a_chainId delegate a_nonce
         (yParity_hex a_sig) (r a_sig) (s a_sig)] in
  let t_sig := sign payerPk (keccak256 (4 :: encodeRlp (RlpArray fields))) in
  mkBuilt a_chainId delegate a_nonce
    (yParity_hex a_sig) (r a_sig) (s a_sig)
    payload (keccak256 payload)
    fields (4 :: encodeRlp (RlpArray fields))
    (keccak256 (4 :: encodeRlp (RlpArray fields)))
    (4 :: encodeRlp (RlpArray (fields ++
       [RlpData (yParity_hex t_sig); RlpData (r t_sig); RlpData (s t_sig)]))).

(** The finished transaction has the wire format: its fields are the
    sequence in order, addressed to [to] with an empty value and access
    list and the one authorization the script signed; the digest and the
    transmittable octets are those of the specification for the key
    [payerPk]. *)
Definition wire_format (payerPk to calldata : bytes) (b : Built) : Prop :=
  (exists chainId nonce tip maxFee gasLimit,
     txData b =
     field_sequence chainId nonce tip maxFee gasLimit to [] calldata []
       [authorization_entry
          (authorization_chainId b) (authorization_address b)
          (authorization_nonce b) (authorization_yParity b)
          (authorization_r b) (authorization_s b)]) /\
  encodedTxData b = TRANSACTION_TYPE :: encodeRlp (RlpArray (txData b)) /\
  txDataHash b = spec_transaction_digest (txData b) /\
  signedTx b = spec_signed_transaction payerPk (txData b).

(** The authorization was signed by [authorizerPk] over the magic octet
    and the RLP of the triple it carries. *)
Definition authorization_signed (authorizerPk : bytes) (b : Built) : Prop :=
  encodedAuthorizationData b =
    spec_authorization_payload (authorization_chainId b)
      (authorization_address b) (authorization_nonce b) /\
  authorizationDataHash b = keccak256 (encodedAuthorizationData b) /\
  let sig := sign authorizerPk (authorizationDataHash b) in
  authorization_yParity b = be_minimal (yParity sig) /\
  authorization_r b = r sig /\
  authorization_s b = s sig.

(** The values [toBeHex] takes without throwing. *)
Definition acceptable (value : BigNumberish) : Prop :=
  match value with
  | JsBigInt n => 0 <= n
  | JsNumber n => 0 <= n <= MAX_SAFE_INTEGER
  | JsNull => False
  end.

(** A numeric field without leading zero octets, the lone octet 0x00 of
    [toBeHex(0)] apart. *)
Definition no_leading_zero (b : bytes) : Prop :=
  b <> [] /\ (hd 0 b = 0 -> b = [0]).

(** The network answers a script can build on: account nonces that are
    safe integers, a chain id and a fee cap that are non-negative
    bigints. The tip may be [null] where the script allows for it. *)
Definition provider_in_range (provider : Provider) : Prop :=
  (forall a, 0 <= getTransactionCount provider a < MAX_SAFE_INTEGER) /\
  0 <= chainId provider /\
  (exists fee, maxFeePerGas (getFeeData provider) = JsBigInt fee /\ 0 <= fee).

Definition tip_is_bigint (provider : Provider) : Prop :=
  exists tip,
    maxPriorityFeePerGas (getFeeData provider) = JsBigInt tip /\ 0 <= tip.

Definition tip_is_bigint_or_null (provider : Provider) : Prop :=
  maxPriorityFeePerGas (getFeeData provider) = JsNull \/
  tip_is_bigint provider.

(** The account nonce the authorizer has when its authorization is
    processed, as the scripts reckon it: the transaction takes the
    sender's transaction count, so an authorizer who sends the
    transaction itself is one further ("future nonce for delegation"),
    and an authorizer for whom another account sends still has its
    count ("current nonce (NOT +1)"). *)
Definition nonce_at_execution (provider : Provider)
    (authorizer sender : bytes) : Z :=
  getTransactionCount provider authorizer +
  (if bool_decide (authorizer = sender) then 1 else 0).

End Scripts.

(** Stand-ins for the cryptography, to run the scripts on concrete
    inputs. *)
Definition toy_hash (b : bytes) : bytes :=
  be_fixed 32 (fold_left (fun acc x => (acc * 257 + x + 1) mod (2 ^ 255 - 19))
                 b 0).

Definition toy_sign (key digest : bytes) : Signature :=
  mkSignature (toy_hash (key ++ digest)) (toy_hash (digest ++ key))
              (27 + hd 0 (toy_hash (digest ++ key)) mod 2).

Definition toy : Ethers :=
  {| keccak256 := toy_hash;
     sign := toy_sign;
     address_of := fun key => be_fixed 20 (hd 0 (toy_hash key)) |}.

(** The same stand-ins with one address for every key of the scenarios:
    the low twenty octets of the key's hash. *)
Definition toy_wallets : Ethers :=
  {| keccak256 := toy_hash;
     sign := toy_sign;
     address_of := fun key => be_fixed 20 (be_value (toy_hash key)) |}.

(** A network on which every account has sent [count] transactions, and
    a delegate address. *)
Definition scenario_provider (count : Z) : Provider :=
  mkProvider (fun _ => count) 1 (mkFeeData (JsBigInt 0) (JsBigInt 7)).

Definition scenario_delegate : bytes := replicate 20 9.

(** A network on which the account of key 1 has sent five transactions
    and every other account nine. *)
Definition scenario_two_accounts : Provider :=
  mkProvider
    (fun a => if bool_decide (a = @address_of toy_wallets [1]) then 5 else 9)
    1 (mkFeeData (JsBigInt 0) (JsBigInt 7)).

(** Networks that report no tip, and neither tip nor fee cap. *)
Definition scenario_provider_no_tip : Provider :=
  mkProvider (fun _ => 5) 1 (mkFeeData JsNull (JsBigInt 7)).

Definition scenario_provider_no_fee_cap : Provider :=
  mkProvider (fun _ => 5) 1 (mkFeeData JsNull JsNull).

End Builder.

(** ** Part III: the typed-data authorizations of the scripts *)

Module TypedData.
Import Token.

(** *** The [TypedDataEncoder] of [ethers]

    An entry of a [types] table: [{ name, type }]. *)
Record TypedDataField := mkField {
  field_name : string;
  field_type : string
}.

(** The values of a domain or message: a number, a bigint or the
    integer a hex string of an address or of 32 octets denotes, or a
    text. An object is the list of its keys and values. *)
Inductive Value :=
| VNum (n : Z)
| VStr (s : string).

Fixpoint js_get (object : list (string * Value)) (key : string)
  : option Value :=
  match object with
  | [] => None
  | (k, v) :: object' => if String.eqb k key then Some v else js_get object' key
  end.

Fixpoint join (sep : string) (l : list string) : string :=
  match l with
  | [] => EmptyString
  | [x] => x
  | x :: l' => x +:+ sep +:+ join sep l'
  end.

(** [name(type1 name1,type2 name2,...)] *)
Definition encodeType (name : string) (fields : list TypedDataField)
  : string :=
  name +:+ "(" +:+
  join "," ((fun f => field_type f +:+ " " +:+ field_name f) <$> fields)
  +:+ ")".

(** The fields a domain may have, in the order of EIP-712; the domain
    type lists those the domain object holds. *)
Definition domainFieldTypes : list TypedDataField :=
  [mkField "name" "string"; mkField "version" "string";
   mkField "chainId" "uint256"; mkField "verifyingContract" "address";
   mkField "salt" "bytes32"].

Definition domain_fields (domain : list (string * Value))
  : list TypedDataField :=
  filter (fun f => is_Some (js_get domain (field_name f))) domainFieldTypes.

(** The signer of a [Wallet]: [(v, r, s)] for a key and a digest, and
    the address of a key. *)
Class Signer := {
  sign : Z -> Z -> Z * Z * Z;
  address_of : Z -> Z
}.

Section Encoder.
Context `{Precompiles}.

(** A field on 32 octets: an address and an unsigned integer must be in
    range, 32 octets must be 32 octets, a text is hashed. Other types do
    not occur in the scripts. *)
Definition encode_value (type : string) (value : Value) : option bytes :=
  match value with
  | VNum n =>
      if String.eqb type "address"
      then if (0 <=? n) && (n <? 2 ^ 160) then Some (be_fixed 32 n) else None
      else if String.eqb type "uint256" || String.eqb type "bytes32"
      then if (0 <=? n) && (n <=? MAX_UINT256) then Some (be_fixed 32 n)
           else None
      else None
  | VStr s =>
      if String.eqb type "string"
      then Some (be_fixed 32 (keccak256 (bytes_of_string s)))
      else None
  end.

Definition hashStruct (name : string) (fields : list TypedDataField)
    (data : list (string * Value)) : option Z :=
  encoded ← mapM (fun f => v ← js_get data (field_name f);
                           encode_value (field_type f) v) fields;
  Some (keccak256
          (be_fixed 32 (keccak256 (bytes_of_string (encodeType name fields)))
           ++ concat encoded)).

Definition hashDomain (domain : list (string * Value)) : option Z :=
  hashStruct "EIP712Domain" (domain_fields domain) domain.

(** [TypedDataEncoder.hash(domain, types, value)] for a primary type
    without nested structures. *)
Definition TypedDataEncoder_hash (domain : list (string * Value))
    (name : string) (fields : list TypedDataField)
    (value : list (string * Value)) : option Z :=
  separator ← hashDomain domain;
  structHash ← hashStruct name fields value;
  Some (keccak256 ([25; 1] ++ be_fixed 32 separator ++ be_fixed 32 structHash)).

Context `{Signer}.

(** *** The scripts

    [types.TransferWithAuthorization] of both scripts. *)
Definition TransferWithAuthorization_types : list TypedDataField :=
  [mkField "from" "address";
   mkField "to" "address";
   mkField "value" "uint256";
   mkField "validAfter" "uint256";
   mkField "validBefore" "uint256";
   mkField "nonce" "bytes32"].

(** What the scripts read before they sign: the key, the recipient, the
    deployed token's address and name, the chain id, the clock in
    seconds and 32 random octets. *)
Record Inputs := mkInputs {
  PRIVATE_KEY : Z;
  recipient : Z;
  tokenAddress : Z;
  token_name : string;
  chainId : Z;
  now : Z;
  nonce : Z
}.

(** The part the two scripts share: the message valid from [lead]
    seconds ago for [life] seconds from now, its typed-data signature,
    and the arguments of [transferWithAuthorization] made of them. *)
Definition signed_authorization (amount lead life : Z) (i : Inputs)
  : option Call :=
  let wallet := address_of (PRIVATE_KEY i) in
  let value := amount in
  let validAfter := now i - lead in
  let validBefore := now i + life in
  let domain :=
    [("name"%string, VStr (token_name i));
     ("version"%string, VStr "1");
     ("chainId"%string, VNum (chainId i));
     ("verifyingContract"%string, VNum (tokenAddress i))] in
  let message :=
    [("from"%string, VNum wallet);
     ("to"%string, VNum (recipient i));
     ("value"%string, VNum value);
     ("validAfter"%string, VNum validAfter);
     ("validBefore"%string, VNum validBefore);
     ("nonce"%string, VNum (nonce i))] in
  digest ← TypedDataEncoder_hash domain "TransferWithAuthorization"
             TransferWithAuthorization_types message;
  let '(v, r, s) := sign (PRIVATE_KEY i) digest in
  Some (CallTransferWithAuthorization wallet (recipient i) value
          validAfter validBefore (nonce i) v r s).

(** scripts/executeTransferWithAuthorization.js: 25 tokens of 18
    decimals, valid since a minute ago, for an hour. *)
Definition executeTransferWithAuthorization : Inputs -> option Call :=
  signed_authorization (25 * 10 ^ 18) 60 3600.

(** src/unnamed/part_001, the authorization it wraps into the batch: 10
    tokens, valid since 30 seconds ago, for half an hour. *)
Definition part_001_authorization : Inputs -> option Call :=
  signed_authorization (10 * 10 ^ 18) 30 1800.

(** The inputs on which the encoder accepts the message. *)
Definition inputs_in_range (lead life : Z) (i : Inputs) : Prop :=
  0 <= address_of (PRIVATE_KEY i) < 2 ^ 160 /\
  0 <= recipient i < 2 ^ 160 /\
  0 <= tokenAddress i < 2 ^ 160 /\
  0 <= chainId i <= MAX_UINT256 /\
  0 <= lead <= now i /\ 0 <= life /\ now i + life <= MAX_UINT256 /\
  0 <= nonce i <= MAX_UINT256.

(** The signer and [ecrecover] belong together: what a key signs
    recovers to the key's address. *)
Definition signatures_recover : Prop :=
  forall key digest,
    let '(v, r, s) := sign key digest in
    ecrecover digest v r s = address_of key.

End Encoder.

(** Stand-in for the signer, matching the stand-in for [ecrecover]. *)
Definition toy_signer : Signer :=
  {| sign := fun key digest => (27, key * 7 + 1, digest);
     address_of := fun key => key * 7 + 1 |}.

(** Key 3, whose address is 22, deploys the token at address 99 on
    chain 5 with a supply of 10^24 and signs at time 1000 under nonce 77
    for recipient 2. *)
Definition scenario_inputs : Inputs :=
  mkInputs 3 2 99 "T" 5 1000 77.

Definition scenario_env0 : Env := mkEnv 22 1000 99 5.

End TypedData.

(** ** Part I, facts *)

Section TokenFacts.
Import Token.
Context `{Precompiles}.

(** *** Equations of the entry points *)

Lemma _transfer_eq (from to value : Z) (st : Storage) :
  _transfer from to value st =
  if value <=? balance st from
  then
    let s1 := set_balance from (wrap256 (balance st from - value)) st in
    let s2 := set_balance to (wrap256 (balance s1 to + value)) s1 in
    inr (tt, log (Transfer from to value) s2)
  else inl (Error "BALANCE").
Proof.
  unfold _transfer, bind, sload, require, emit, sstore, ret, revert.
  destruct (value <=? balance st from); reflexivity.
Qed.

Lemma _validateAndUse_eq env authorizer va vb nonce structHash v r s st :
  _validateAndUse env authorizer va vb nonce structHash v r s st =
  if negb (va <? block_timestamp env) then inl (Error "TIME_NOT_YET")
  else if negb (block_timestamp env <? vb) then inl (Error "TIME_EXPIRED")
  else if negb (bool_decide
         (ecrecover (typed_message_hash (DOMAIN_SEPARATOR st) structHash)
                    v r s = authorizer))
       then inl (Error "SIG")
  else if negb (bool_decide
         (auth_state st (_authKey authorizer nonce) = Unused))
       then inl (Error "USED_OR_CANCELLED")
  else inr (tt, used authorizer nonce st).
Proof.
  unfold _validateAndUse, _toTypedMessageHash, bind, sload, require, emit,
    sstore, ret, revert, used.
  destruct (va <? block_timestamp env); [|reflexivity].
  destruct (block_timestamp env <? vb); [|reflexivity].
  cbn. case_bool_decide; [|reflexivity].
  cbn. case_bool_decide; reflexivity.
Qed.

Lemma transferWithAuthorization_eq env from to value va vb nonce v r s st :
  transferWithAuthorization env from to value va vb nonce v r s st =
  if negb (va <? block_timestamp env) then inl (Error "TIME_NOT_YET")
  else if negb (block_timestamp env <? vb) then inl (Error "TIME_EXPIRED")
  else if negb (bool_decide
         (ecrecover (transfer_digest st from to value va vb nonce) v r s
          = from))
       then inl (Error "SIG")
  else if negb (bool_decide (auth_state st (_authKey from nonce) = Unused))
       then inl (Error "USED_OR_CANCELLED")
  else _transfer from to value (used from nonce st).
Proof.
  unfold transferWithAuthorization, bind. rewrite _validateAndUse_eq.
  unfold transfer_digest.
  repeat (match goal with |- context [if negb ?b then _ else _] =>
            destruct b; cbn [negb]; try reflexivity end).
Qed.

Lemma cancelAuthorization_eq env authorizer nonce v r s st :
  cancelAuthorization env authorizer nonce v r s st =
  if negb (bool_decide
         (ecrecover (cancel_digest st authorizer nonce) v r s = authorizer))
  then inl (Error "SIG")
  else if negb (bool_decide
         (auth_state st (_authKey authorizer nonce) = Unused))
       then inl (Error "STATE")
  else inr (tt, canceled authorizer nonce st).
Proof.
  unfold cancelAuthorization, _toTypedMessageHash, bind, sload, require,
    emit, sstore, ret, revert, canceled, cancel_digest.
  cbn. case_bool_decide; [|reflexivity].
  cbn. case_bool_decide; reflexivity.
Qed.

Lemma transferFrom_eq env from to value st :
  transferFrom env from to value st =
  let allowed := allowed_of st from (msg_sender env) in
  if negb (value <=? allowed) then inl (Error "ALLOWANCE")
  else
    match _transfer from to value
            (if bool_decide (allowed <> MAX_UINT256)
             then set_allowance from (msg_sender env) (allowed - value) st
             else st) with
    | inl e => inl e
    | inr (_, st') => inr (true, st')
    end.
Proof.
  unfold transferFrom, bind, sload, require, checked_sub, sstore, ret, revert.
  cbn zeta.
  destruct (value <=? allowed_of st from (msg_sender env)) eqn:E;
    [|reflexivity].
  cbn [negb]. case_bool_decide.
  - destruct (_transfer _ _ _ _) as [e|[[] st']]; reflexivity.
  - destruct (_transfer _ _ _ _) as [e|[[] st']]; reflexivity.
Qed.

Lemma _mint_eq to value st :
  _mint to value st =
  if totalSupply st + value <=? MAX_UINT256
  then if balance st to + value <=? MAX_UINT256
       then inr (tt, log (Transfer 0 to value)
                       (set_balance to (balance st to + value)
                          (set_totalSupply (totalSupply st + value) st)))
       else inl (Panic 17)
  else inl (Panic 17).
Proof.
  unfold _mint, bind, sload, checked_add, sstore, emit, ret, revert.
  destruct (totalSupply st + value <=? MAX_UINT256); [|reflexivity].
  change (balance (set_totalSupply (totalSupply st + value) st) to)
    with (balance st to).
  destruct (balance st to + value <=? MAX_UINT256); reflexivity.
Qed.

Lemma constructor_eq env _name _symbol _decimals _initialSupply st :
  constructor env _name _symbol _decimals _initialSupply st =
  _mint (msg_sender env) _initialSupply
    (set_metadata env _name _symbol _decimals st).
Proof. reflexivity. Qed.

Lemma transfer_eq env to value st :
  transfer env to value st =
  match _transfer (msg_sender env) to value st with
  | inl e => inl e
  | inr (_, st') => inr (true, st')
  end.
Proof.
  unfold transfer, bind, ret.
  destruct (_transfer _ _ _ _) as [e|[[] st']]; reflexivity.
Qed.

(** *** What the calls leave of the authorization records *)

Lemma _transfer_records from to value st st' :
  _transfer from to value st = inr (tt, st') ->
  authorizationState st' = authorizationState st.
Proof.
  rewrite _transfer_eq. destruct (value <=? balance st from); [|discriminate].
  intros [= <-]. reflexivity.
Qed.

Lemma auth_state_used_eq authorizer nonce st :
  auth_state (used authorizer nonce st) (_authKey authorizer nonce) = Used.
Proof. unfold auth_state, used. cbn. by rewrite lookup_insert_eq. Qed.

Lemma auth_state_used_ne authorizer nonce st k :
  k <> _authKey authorizer nonce ->
  auth_state (used authorizer nonce st) k = auth_state st k.
Proof. intros Hk. unfold auth_state, used. cbn. by rewrite lookup_insert_ne. Qed.

Lemma auth_state_canceled_eq authorizer nonce st :
  auth_state (canceled authorizer nonce st) (_authKey authorizer nonce)
  = Canceled.
Proof. unfold auth_state, canceled. cbn. by rewrite lookup_insert_eq. Qed.

Lemma auth_state_canceled_ne authorizer nonce st k :
  k <> _authKey authorizer nonce ->
  auth_state (canceled authorizer nonce st) k = auth_state st k.
Proof.
  intros Hk. unfold auth_state, canceled. cbn. by rewrite lookup_insert_ne.
Qed.

(** A successful [transferWithAuthorization] found its record [Unused]
    and left the storage of [_transfer] run after the record was marked. *)
Lemma transferWithAuthorization_inv env from to value va vb nonce v r s st st' :
  transferWithAuthorization env from to value va vb nonce v r s st
    = inr (tt, st') ->
  (va < block_timestamp env < vb) /\
  ecrecover (transfer_digest st from to value va vb nonce) v r s = from /\
  auth_state st (_authKey from nonce) = Unused /\
  _transfer from to value (used from nonce st) = inr (tt, st').
Proof.
  rewrite transferWithAuthorization_eq.
  destruct (va <? block_timestamp env) eqn:E1; [|discriminate].
  destruct (block_timestamp env <? vb) eqn:E2; [|discriminate].
  cbn [negb]. case_bool_decide; [|discriminate].
  cbn [negb]. case_bool_decide; [|discriminate].
  cbn [negb]. intros Ht. repeat split; try assumption; lia.
Qed.

Lemma cancelAuthorization_inv env authorizer nonce v r s st st' :
  cancelAuthorization env authorizer nonce v r s st = inr (tt, st') ->
  ecrecover (cancel_digest st authorizer nonce) v r s = authorizer /\
  auth_state st (_authKey authorizer nonce) = Unused /\
  st' = canceled authorizer nonce st.
Proof.
  rewrite cancelAuthorization_eq.
  case_bool_decide; [|discriminate].
  cbn [negb]. case_bool_decide; [|discriminate].
  cbn [negb]. intros [= <-]. auto.
Qed.

(** A record that has left [Unused] is never written again. *)
Lemma step_keeps_consumed env c st k :
  auth_state st k <> Unused ->
  auth_state (step env c st) k = auth_state st k.
Proof.
  intros Hk. destruct c; cbn [step]; unfold commit.
  - rewrite transfer_eq.
    destruct (_transfer _ _ _ _) as [e|[[] st']] eqn:E; [reflexivity|].
    unfold auth_state. by rewrite (_transfer_records _ _ _ _ _ E).
  - reflexivity.
  - rewrite transferFrom_eq. cbn zeta.
    destruct (negb _); [reflexivity|].
    destruct (_transfer _ _ _ _) as [e|[[] st']] eqn:E; [reflexivity|].
    unfold auth_state. rewrite (_transfer_records _ _ _ _ _ E).
    case_bool_decide; reflexivity.
  - destruct (transferWithAuthorization _ _ _ _ _ _ _ _ _ _ _)
      as [e|[[] st']] eqn:E; [reflexivity|].
    apply transferWithAuthorization_inv in E as (_ & _ & Hu & Ht).
    unfold auth_state at 1. rewrite (_transfer_records _ _ _ _ _ Ht).
    apply auth_state_used_ne. congruence.
  - destruct (cancelAuthorization _ _ _ _ _ _ _) as [e|[[] st']] eqn:E;
      [reflexivity|].
    apply cancelAuthorization_inv in E as (_ & Hu & ->).
    apply auth_state_canceled_ne. congruence.
Qed.

Lemma run_keeps_consumed txs st k :
  auth_state st k <> Unused ->
  auth_state (run txs st) k = auth_state st k.
Proof.
  revert st. induction txs as [|[env c] txs IH]; intros st Hk; [reflexivity|].
  cbn [run]. rewrite IH; rewrite step_keeps_consumed; auto.
Qed.

(** *** The time window *)

(** C2. [transferWithAuthorization] succeeds only strictly inside
    (validAfter, validBefore): at or before [validAfter] it fails with
    TIME_NOT_YET, at or after [validBefore] with a timing condition
    (TIME_EXPIRED once [validAfter] has passed), whatever the signature
    recovers to; the result of [cancelAuthorization] does not depend on
    the block time, nor on anything else of the call environment. *)
Theorem transferWithAuthorization_time_window
    env from to value va vb nonce v r s st :
  let call := transferWithAuthorization env from to value va vb nonce v r s in
  (succeeds call st -> va < block_timestamp env < vb) /\
  (block_timestamp env <= va -> fails_with call st "TIME_NOT_YET") /\
  (va < block_timestamp env -> vb <= block_timestamp env ->
   fails_with call st "TIME_EXPIRED") /\
  (vb <= block_timestamp env ->
   exists reason, timing_condition reason /\ fails_with call st reason) /\
  (forall env',
     cancelAuthorization env' from nonce v r s st
     = cancelAuthorization env from nonce v r s st).
Proof.
  cbn zeta. unfold succeeds, fails_with, timing_condition.
  rewrite !transferWithAuthorization_eq.
  split; [|split; [|split; [|split]]].
  - intros (a & st' & E). revert E.
    destruct (va <? block_timestamp env) eqn:E1; [|discriminate].
    destruct (block_timestamp env <? vb) eqn:E2; [|discriminate]. lia.
  - intros Hle. destruct (va <? block_timestamp env) eqn:E1; [lia|reflexivity].
  - intros Hlt Hle.
    destruct (va <? block_timestamp env) eqn:E1; [|lia].
    destruct (block_timestamp env <? vb) eqn:E2; [lia|reflexivity].
  - intros Hle. destruct (va <? block_timestamp env) eqn:E1.
    + destruct (block_timestamp env <? vb) eqn:E2; [lia|]. eauto.
    + eauto.
  - intros env'. by rewrite !cancelAuthorization_eq.
Qed.

(** *** The signature check *)

(** C8. Once the time window has let the call through, the signature
    check of [transferWithAuthorization] fails with SIG exactly when
    [ecrecover] does not return [from]; that of [cancelAuthorization]
    fails with SIG exactly when [ecrecover] does not return the
    authorizer. There is no test for the zero address: with authorizer 0
    and a signature on which recovery fails (result 0) the check passes
    and the call goes on to the record check and the write. *)
Theorem signature_check_exact env from to value va vb nonce v r s st :
  (va < block_timestamp env < vb ->
   (fails_with (transferWithAuthorization env from to value va vb nonce v r s)
      st "SIG" <->
    ecrecover (transfer_digest st from to value va vb nonce) v r s <> from)) /\
  (fails_with (cancelAuthorization env from nonce v r s) st "SIG" <->
   ecrecover (cancel_digest st from nonce) v r s <> from) /\
  (va < block_timestamp env < vb ->
   ecrecover (transfer_digest st 0 to value va vb nonce) v r s = 0 ->
   auth_state st (_authKey 0 nonce) = Unused ->
   transferWithAuthorization env 0 to value va vb nonce v r s st
   = _transfer 0 to value (used 0 nonce st)) /\
  (ecrecover (cancel_digest st 0 nonce) v r s = 0 ->
   auth_state st (_authKey 0 nonce) = Unused ->
   cancelAuthorization env 0 nonce v r s st = inr (tt, canceled 0 nonce st)).
Proof.
  unfold fails_with. rewrite !transferWithAuthorization_eq,
    !cancelAuthorization_eq.
  split; [|split; [|split]].
  - intros [H1 H2].
    destruct (va <? block_timestamp env) eqn:E1; [|lia].
    destruct (block_timestamp env <? vb) eqn:E2; [|lia].
    cbn [negb]. case_bool_decide as Hr; cbn [negb].
    + split; [|tauto]. case_bool_decide; cbn [negb]; [|discriminate].
      rewrite _transfer_eq. case_match; discriminate.
    + tauto.
  - case_bool_decide as Hr; cbn [negb]; [|tauto].
    split; [|tauto]. case_bool_decide; discriminate.
  - intros [H1 H2] Hr Hu.
    destruct (va <? block_timestamp env) eqn:E1; [|lia].
    destruct (block_timestamp env <? vb) eqn:E2; [|lia].
    rewrite !bool_decide_eq_true_2 by assumption. reflexivity.
  - intros Hr Hu. rewrite !bool_decide_eq_true_2 by assumption. reflexivity.
Qed.

(** *** The frame of a cancellation *)

(** C10. A successful [cancelAuthorization] writes one storage slot, the
    record at the key of (authorizer, nonce), which becomes Canceled, and
    logs one event: balances, allowances, the supply, the token metadata
    and every record at another key are as before. *)
Theorem cancelAuthorization_frame env authorizer nonce v r s st st' :
  cancelAuthorization env authorizer nonce v r s st = inr (tt, st') ->
  auth_state st' (_authKey authorizer nonce) = Canceled /\
  (forall k, k <> _authKey authorizer nonce ->
     authorizationState st' !! k = authorizationState st !! k) /\
  (forall authorizer' nonce',
     _authKey authorizer' nonce' <> _authKey authorizer nonce ->
     auth_state st' (_authKey authorizer' nonce')
     = auth_state st (_authKey authorizer' nonce')) /\
  balanceOf st' = balanceOf st /\
  allowance st' = allowance st /\
  totalSupply st' = totalSupply st /\
  (name st', symbol st', decimals st', DOMAIN_SEPARATOR st')
  = (name st, symbol st, decimals st, DOMAIN_SEPARATOR st) /\
  events st' = events st ++ [AuthorizationCanceled authorizer nonce].
Proof.
  intros E. apply cancelAuthorization_inv in E as (_ & _ & ->).
  split; [apply auth_state_canceled_eq|].
  split; [intros k Hk; cbn; by rewrite lookup_insert_ne|].
  split; [intros a n Hk; by apply auth_state_canceled_ne|].
  repeat split.
Qed.

(** *** Atomicity of the authorized transfer *)

Lemma balance_used authorizer nonce st a :
  balance (used authorizer nonce st) a = balance st a.
Proof. reflexivity. Qed.

(** C3. In [transferWithAuthorization] the record transition and the
    balance transfer stand or fall together. A failing precondition
    (time window, signature, record not Unused) reverts with a reason and
    the storage is left as it was; so is it after any revert. A
    successful call has both marked the record Used and run the transfer.
    When only the balance is short, [_validateAndUse] has already marked
    the record, yet the call reverts with BALANCE and the record is
    Unused afterwards. *)
Theorem transferWithAuthorization_atomic
    env from to value va vb nonce v r s st :
  let call := transferWithAuthorization env from to value va vb nonce v r s in
  let key := _authKey from nonce in
  let structHash :=
    keccak256 (abi_encode
      [TRANSFER_WITH_AUTHORIZATION_TYPEHASH; from; to; value; va; vb; nonce]) in
  (block_timestamp env <= va \/ vb <= block_timestamp env \/
   ecrecover (transfer_digest st from to value va vb nonce) v r s <> from \/
   auth_state st key <> Unused ->
   (exists reason, fails_with call st reason) /\ commit call st = st) /\
  (forall e, call st = inl e -> commit call st = st) /\
  (forall st', call st = inr (tt, st') ->
     commit call st = st' /\
     auth_state st key = Unused /\ auth_state st' key = Used /\
     value <= balance st from /\
     _transfer from to value (used from nonce st) = inr (tt, st')) /\
  (succeeds call st <->
   va < block_timestamp env < vb /\
   ecrecover (transfer_digest st from to value va vb nonce) v r s = from /\
   auth_state st key = Unused /\
   value <= balance st from) /\
  (va < block_timestamp env < vb ->
   ecrecover (transfer_digest st from to value va vb nonce) v r s = from ->
   auth_state st key = Unused ->
   balance st from < value ->
   _validateAndUse env from va vb nonce structHash v r s st
   = inr (tt, used from nonce st) /\
   auth_state (used from nonce st) key = Used /\
   fails_with call st "BALANCE" /\
   commit call st = st /\
   auth_state (commit call st) key = Unused).
Proof.
  cbn zeta.
  assert (Hrev : forall e,
    transferWithAuthorization env from to value va vb nonce v r s st = inl e ->
    commit (transferWithAuthorization env from to value va vb nonce v r s) st
    = st) by (intros e E; unfold commit; by rewrite E).
  split; [|split; [exact Hrev|split; [|split]]].
  - intros Hpre.
    assert (exists reason,
      transferWithAuthorization env from to value va vb nonce v r s st
      = inl (Error reason)) as [reason E].
    { rewrite transferWithAuthorization_eq.
      destruct (va <? block_timestamp env) eqn:E1; [|eauto].
      destruct (block_timestamp env <? vb) eqn:E2; [|eauto].
      cbn [negb]. case_bool_decide; [|eauto].
      cbn [negb]. case_bool_decide; [|eauto].
      exfalso. destruct Hpre as [?|[?|[?|?]]]; try lia; contradiction. }
    split; [by exists reason|by apply (Hrev (Error reason))].
  - intros st' E. split; [unfold commit; by rewrite E|].
    apply transferWithAuthorization_inv in E as (Ht & Hr & Hu & Htr).
    split; [assumption|].
    split.
    + unfold auth_state. rewrite (_transfer_records _ _ _ _ _ Htr).
      apply auth_state_used_eq.
    + split; [|assumption]. rewrite _transfer_eq in Htr.
      rewrite balance_used in Htr.
      destruct (value <=? balance st from) eqn:Eb; [lia|discriminate].
  - unfold succeeds. split.
    + intros ([] & st' & E).
      apply transferWithAuthorization_inv in E as (Ht & Hr & Hu & Htr).
      repeat split; try assumption; try lia.
      rewrite _transfer_eq, balance_used in Htr.
      destruct (value <=? balance st from) eqn:Eb; [lia|discriminate].
    + intros (Ht & Hr & Hu & Hb). rewrite transferWithAuthorization_eq.
      destruct (va <? block_timestamp env) eqn:E1; [|lia].
      destruct (block_timestamp env <? vb) eqn:E2; [|lia].
      rewrite !bool_decide_eq_true_2 by assumption. cbn [negb].
      rewrite _transfer_eq, balance_used.
      destruct (value <=? balance st from) eqn:Eb; [|lia]. eauto.
  - intros Ht Hr Hu Hb.
    assert (E : transferWithAuthorization env from to value va vb nonce v r s
                  st = inl (Error "BALANCE")).
    { rewrite transferWithAuthorization_eq.
      destruct (va <? block_timestamp env) eqn:E1; [|lia].
      destruct (block_timestamp env <? vb) eqn:E2; [|lia].
      rewrite !bool_decide_eq_true_2 by assumption. cbn [negb].
      rewrite _transfer_eq, balance_used.
      destruct (value <=? balance st from) eqn:Eb; [lia|reflexivity]. }
    split.
    { rewrite _validateAndUse_eq.
      destruct (va <? block_timestamp env) eqn:E1; [|lia].
      destruct (block_timestamp env <? vb) eqn:E2; [|lia].
      unfold transfer_digest in Hr.
      rewrite !bool_decide_eq_true_2 by assumption. reflexivity. }
    split; [apply auth_state_used_eq|].
    split; [exact E|].
    rewrite (Hrev _ E). split; [reflexivity|assumption].
Qed.

(** *** The life of an authorization record *)

Lemma constructor_records env _name _symbol _decimals _initialSupply k :
  auth_state
    (commit (constructor env _name _symbol _decimals _initialSupply)
            empty_storage) k = Unused.
Proof.
  unfold commit, constructor, bind, sstore. rewrite _mint_eq.
  repeat case_match; simplify_eq; reflexivity.
Qed.

Lemma consumes_inv authorizer nonce st st' outcome :
  consumes authorizer nonce st st' outcome ->
  auth_state st (_authKey authorizer nonce) = Unused /\
  auth_state st' (_authKey authorizer nonce) = outcome /\
  outcome <> Unused.
Proof.
  intros [[-> (env & to & value & va & vb & v & r & s & E)]
         |[-> (env & v & r & s & E)]].
  - apply transferWithAuthorization_inv in E as (_ & _ & Hu & Htr).
    split; [assumption|]. split; [|discriminate].
    unfold auth_state. rewrite (_transfer_records _ _ _ _ _ Htr).
    apply auth_state_used_eq.
  - apply cancelAuthorization_inv in E as (_ & Hu & ->).
    split; [assumption|]. split; [|discriminate].
    apply auth_state_canceled_eq.
Qed.

(** C1, as the code has it. Every record starts Unused. The call that
    consumes the record of (authorizer, nonce) finds it Unused and leaves
    it Used (transfer) or Canceled (cancellation); whatever transactions
    follow, the record keeps that value, so none returns it to Unused;
    and every later [transferWithAuthorization] or [cancelAuthorization]
    for the pair reverts. The checks run in the order of the code, so
    the revert carries the already-consumed reason (USED_OR_CANCELLED,
    STATE for a cancellation) when the attempt passes the time window and
    the signature check, which come first. *)
Theorem authorization_record_consumed_once
    authorizer nonce st0 st1 outcome txs :
  consumes authorizer nonce st0 st1 outcome ->
  let st := run txs st1 in
  let key := _authKey authorizer nonce in
  (forall env _name _symbol _decimals _initialSupply k,
     auth_state
       (commit (constructor env _name _symbol _decimals _initialSupply)
               empty_storage) k = Unused) /\
  auth_state st0 key = Unused /\
  auth_state st key = outcome /\ outcome <> Unused /\
  (forall txs', auth_state (run txs' st) key = outcome) /\
  (forall env to value va vb v r s,
     let attempt :=
       transferWithAuthorization env authorizer to value va vb nonce v r s in
     (exists e, attempt st = inl e) /\
     commit attempt st = st /\
     (va < block_timestamp env < vb ->
      ecrecover (transfer_digest st authorizer to value va vb nonce) v r s
      = authorizer ->
      fails_with attempt st "USED_OR_CANCELLED")) /\
  (forall env v r s,
     let attempt := cancelAuthorization env authorizer nonce v r s in
     (exists e, attempt st = inl e) /\
     commit attempt st = st /\
     (ecrecover (cancel_digest st authorizer nonce) v r s = authorizer ->
      fails_with attempt st "STATE")).
Proof.
  intros Hc. cbn zeta.
  apply consumes_inv in Hc as (Hu0 & Ho1 & Hne).
  assert (Ho : auth_state (run txs st1) (_authKey authorizer nonce) = outcome)
    by (rewrite run_keeps_consumed; congruence).
  assert (Hnu : auth_state (run txs st1) (_authKey authorizer nonce) <> Unused)
    by congruence.
  split.
  { intros env n sy d supply k. by rewrite constructor_records. }
  split; [assumption|]. split; [assumption|]. split; [assumption|].
  split; [intros txs'; rewrite run_keeps_consumed; congruence|].
  split.
  - intros env to value va vb v r s. cbn zeta.
    assert (exists e,
      transferWithAuthorization env authorizer to value va vb nonce v r s
        (run txs st1) = inl e) as [e E].
    { rewrite transferWithAuthorization_eq.
      repeat (match goal with |- context [if negb ?b then _ else _] =>
        destruct b eqn:?; cbn [negb]; eauto end).
      exfalso. apply Hnu. by eapply bool_decide_eq_true_1. }
    split; [eauto|]. split; [unfold commit; by rewrite E|].
    intros Ht Hr. unfold fails_with. rewrite transferWithAuthorization_eq.
    destruct (va <? block_timestamp env) eqn:E1; [|lia].
    destruct (block_timestamp env <? vb) eqn:E2; [|lia].
    rewrite (bool_decide_eq_true_2 _ Hr), (bool_decide_eq_false_2 _ Hnu).
    reflexivity.
  - intros env v r s. cbn zeta.
    assert (exists e,
      cancelAuthorization env authorizer nonce v r s (run txs st1) = inl e)
      as [e E].
    { rewrite cancelAuthorization_eq.
      repeat (match goal with |- context [if negb ?b then _ else _] =>
        destruct b eqn:?; cbn [negb]; eauto end).
      exfalso. apply Hnu. by eapply bool_decide_eq_true_1. }
    split; [eauto|]. split; [unfold commit; by rewrite E|].
    intros Hr. unfold fails_with. rewrite cancelAuthorization_eq.
    rewrite (bool_decide_eq_true_2 _ Hr), (bool_decide_eq_false_2 _ Hnu).
    reflexivity.
Qed.

(** *** The ledger *)

Lemma sum_map_insert_fresh (m : gmap Z Z) a v :
  m !! a = None -> sum_map (<[a := v]> m) = v + sum_map m.
Proof.
  intros Hm. unfold sum_map. apply map_fold_insert_L; [intros; lia|done].
Qed.

Lemma sum_map_split (m : gmap Z Z) a v :
  m !! a = Some v -> sum_map m = v + sum_map (delete a m).
Proof.
  intros Hm. rewrite <- (insert_delete_id m a v Hm) at 1.
  apply sum_map_insert_fresh, lookup_delete_eq.
Qed.

Lemma sum_map_insert (m : gmap Z Z) a v :
  sum_map (<[a := v]> m) = sum_map m - default 0 (m !! a) + v.
Proof.
  destruct (m !! a) as [x|] eqn:E; cbn.
  - rewrite <- insert_delete_eq.
    rewrite sum_map_insert_fresh by apply lookup_delete_eq.
    rewrite (sum_map_split m a x E). lia.
  - rewrite sum_map_insert_fresh by assumption. lia.
Qed.

Lemma sum_map_nonneg (m : gmap Z Z) :
  map_Forall (fun _ v => 0 <= v) m -> 0 <= sum_map m.
Proof.
  induction m as [|a v m Hm IH] using map_ind; intros Hall.
  - unfold sum_map. by rewrite map_fold_empty.
  - rewrite sum_map_insert_fresh by assumption.
    apply map_Forall_insert in Hall as [Hv Hall]; [|assumption].
    specialize (IH Hall). lia.
Qed.

Lemma sum_map_bound2 (m : gmap Z Z) a b :
  map_Forall (fun _ v => 0 <= v) m -> a <> b ->
  default 0 (m !! a) + default 0 (m !! b) <= sum_map m.
Proof.
  intros Hall Hab.
  pose proof (sum_map_nonneg m Hall) as H0.
  assert (Hd : forall k, map_Forall (fun _ v => 0 <= v) (delete k m))
    by (intros k; by apply map_Forall_delete).
  destruct (m !! a) as [x|] eqn:Ea; cbn.
  - rewrite (sum_map_split m a x Ea).
    destruct (m !! b) as [y|] eqn:Eb; cbn.
    + assert (Eb' : delete a m !! b = Some y) by by rewrite lookup_delete_ne.
      rewrite (sum_map_split _ b y Eb').
      pose proof (sum_map_nonneg (delete b (delete a m))) as H1.
      specialize (H1 ltac:(by apply map_Forall_delete)). lia.
    + pose proof (sum_map_nonneg _ (Hd a)). lia.
  - destruct (m !! b) as [y|] eqn:Eb; cbn; [|lia].
    rewrite (sum_map_split m b y Eb).
    pose proof (sum_map_nonneg _ (Hd b)). lia.
Qed.

Lemma well_typed_balance st a : well_typed st -> is_uint256 (balance st a).
Proof.
  intros [_ Hall]. unfold balance.
  destruct (balanceOf st !! a) as [x|] eqn:E; cbn.
  - exact (Hall a x E).
  - unfold is_uint256, MAX_UINT256. lia.
Qed.

Lemma well_typed_nonneg st :
  well_typed st -> map_Forall (fun _ v => 0 <= v) (balanceOf st).
Proof. intros [_ Hall] a x E. destruct (Hall a x E). assumption. Qed.

Lemma wrap256_small v : is_uint256 v -> wrap256 v = v.
Proof.
  unfold is_uint256, MAX_UINT256, wrap256. intros Hv.
  apply Z.mod_small. lia.
Qed.

Lemma balance_log e st a : balance (log e st) a = balance st a.
Proof. reflexivity. Qed.

Lemma balance_set_balance st a v b :
  balance (set_balance a v st) b = if decide (a = b) then v else balance st b.
Proof.
  unfold balance, set_balance. cbn. rewrite lookup_insert.
  destruct (decide (a = b)); reflexivity.
Qed.

(** [supply_invariant] and [moved] only read the supply and the
    balances. *)
Lemma supply_invariant_ext st st' :
  totalSupply st' = totalSupply st -> balanceOf st' = balanceOf st ->
  supply_invariant st -> supply_invariant st'.
Proof.
  unfold supply_invariant, well_typed, sum_balances.
  intros -> ->. tauto.
Qed.

Lemma _transfer_moved from to value st st' :
  supply_invariant st -> is_uint256 value ->
  _transfer from to value st = inr (tt, st') ->
  supply_invariant st' /\ moved from to value st st'.
Proof.
  intros [Hwt Hsum] Hv. rewrite _transfer_eq.
  destruct (value <=? balance st from) eqn:Eb; [|discriminate].
  apply Z.leb_le in Eb. cbn zeta.
  pose proof (well_typed_balance st from Hwt) as Hbf.
  pose proof (well_typed_balance st to Hwt) as Hbt.
  assert (Hf : is_uint256 (balance st from - value))
    by (unfold is_uint256 in *; lia).
  rewrite (wrap256_small _ Hf).
  rewrite balance_set_balance.
  set (mid := if decide (from = to) then balance st from - value
              else balance st to).
  assert (Hm : is_uint256 (mid + value)).
  { subst mid. destruct (decide (from = to)) as [->|Hne].
    - replace (balance st to - value + value) with (balance st to) by lia.
      assumption.
    - pose proof (sum_map_bound2 (balanceOf st) from to
                    (well_typed_nonneg st Hwt) Hne) as Hb.
      fold (balance st from) (balance st to) in Hb.
      destruct Hwt as [Hts _]. unfold sum_balances in Hsum.
      unfold is_uint256 in *. lia. }
  rewrite (wrap256_small _ Hm). intros [= <-].
  split.
  - split.
    + destruct Hwt as [Hts Hall]. split; [exact Hts|]. cbn.
      apply map_Forall_insert_2; [exact Hm|].
      apply map_Forall_insert_2; assumption.
    + unfold sum_balances in *. cbn. rewrite !sum_map_insert.
      rewrite lookup_insert. fold (balance st from).
      subst mid. destruct (decide (from = to)) as [->|Hne]; cbn.
      * lia.
      * fold (balance st to). lia.
  - unfold moved. split; [reflexivity|]. split; [|split].
    + intros Hne. subst mid. rewrite !balance_log, !balance_set_balance.
      rewrite (decide_False (P := from = to)) by assumption.
      rewrite (decide_False (P := to = from)) by congruence.
      by rewrite !decide_True by reflexivity.
    + intros ->. subst mid. rewrite !balance_log, !balance_set_balance.
      rewrite !decide_True by reflexivity. lia.
    + intros a Ha1 Ha2. rewrite !balance_log, !balance_set_balance.
      by rewrite !decide_False by congruence.
Qed.

Lemma _mint_invariant to value st st' :
  supply_invariant st -> is_uint256 value ->
  _mint to value st = inr (tt, st') ->
  supply_invariant st' /\
  totalSupply st' = totalSupply st + value /\
  balance st' to = balance st to + value.
Proof.
  intros [Hwt Hsum] Hv. rewrite _mint_eq.
  destruct (totalSupply st + value <=? MAX_UINT256) eqn:E1; [|discriminate].
  destruct (balance st to + value <=? MAX_UINT256) eqn:E2; [|discriminate].
  intros [= <-]. apply Z.leb_le in E1, E2.
  pose proof (well_typed_balance st to Hwt) as Hbt.
  destruct Hwt as [Hts Hall].
  split; [|split].
  - split.
    + split; cbn; [unfold is_uint256 in *; lia|].
      apply map_Forall_insert_2; [unfold is_uint256 in *; lia|assumption].
    + unfold sum_balances in *. cbn. rewrite sum_map_insert.
      fold (balance st to). lia.
  - reflexivity.
  - unfold balance at 1. cbn. by rewrite lookup_insert_eq.
Qed.

Lemma empty_storage_invariant : supply_invariant empty_storage.
Proof.
  split; [split|].
  - unfold is_uint256, MAX_UINT256. cbn. lia.
  - apply map_Forall_empty.
  - unfold sum_balances, sum_map. cbn. by rewrite map_fold_empty.
Qed.

Lemma step_invariant env c st :
  supply_invariant st -> call_well_typed c ->
  supply_invariant (step env c st) /\
  totalSupply (step env c st) = totalSupply st.
Proof.
  intros Hinv Hc. destruct c; cbn in Hc; cbn [step]; unfold commit.
  - rewrite transfer_eq.
    destruct (_transfer _ _ _ _) as [e|[[] st']] eqn:E; [auto|].
    destruct (_transfer_moved _ _ _ _ _ Hinv Hc E) as (? & ? & _). auto.
  - split; [|reflexivity]. revert Hinv. by apply supply_invariant_ext.
  - rewrite transferFrom_eq. cbn zeta.
    destruct (negb _); [auto|].
    destruct (_transfer _ _ _ _) as [e|[[] st']] eqn:E; [auto|].
    apply _transfer_moved in E as (? & Hts & _); [|by case_bool_decide|done].
    split; [assumption|]. rewrite Hts. by case_bool_decide.
  - destruct (transferWithAuthorization _ _ _ _ _ _ _ _ _ _ _)
      as [e|[[] st']] eqn:E; [auto|].
    apply transferWithAuthorization_inv in E as (_ & _ & _ & E).
    apply _transfer_moved in E as (? & Hts & _); [auto| |done].
    revert Hinv. by apply supply_invariant_ext.
  - destruct (cancelAuthorization _ _ _ _ _ _ _) as [e|[[] st']] eqn:E;
      [auto|].
    apply cancelAuthorization_inv in E as (_ & _ & ->).
    split; [|reflexivity]. revert Hinv. by apply supply_invariant_ext.
Qed.

Lemma run_invariant txs st :
  supply_invariant st -> Forall (fun tx => call_well_typed tx.2) txs ->
  supply_invariant (run txs st) /\ totalSupply (run txs st) = totalSupply st.
Proof.
  revert st. induction txs as [|[env c] txs IH]; intros st Hinv Hall;
    [auto|].
  apply Forall_cons in Hall as [Hc Hall]. cbn [run].
  destruct (step_invariant env c st Hinv Hc) as [Hi Ht].
  destruct (IH _ Hi Hall) as [Hi' Ht']. split; [assumption|congruence].
Qed.

Lemma constructor_invariant env _name _symbol _decimals _initialSupply :
  is_uint256 _initialSupply ->
  exists st0,
    constructor env _name _symbol _decimals _initialSupply empty_storage
    = inr (tt, st0) /\
    supply_invariant st0 /\
    totalSupply st0 = _initialSupply /\
    balance st0 (msg_sender env) = _initialSupply.
Proof.
  intros Hs. rewrite constructor_eq.
  set (st := set_metadata env _name _symbol _decimals empty_storage).
  assert (E : (0 + _initialSupply <=? MAX_UINT256) = true)
    by (apply Z.leb_le; unfold is_uint256 in Hs; lia).
  assert (Hi0 : supply_invariant st)
    by (apply (supply_invariant_ext empty_storage);
        [reflexivity|reflexivity|apply empty_storage_invariant]).
  destruct (_mint (msg_sender env) _initialSupply st)
    as [e|[[] st0]] eqn:Em.
  - exfalso. rewrite _mint_eq in Em.
    change (totalSupply st) with 0 in Em.
    change (balance st (msg_sender env)) with 0 in Em.
    rewrite E in Em. discriminate.
  - exists st0. split; [reflexivity|].
    destruct (_mint_invariant _ _ _ _ Hi0 Hs Em) as (Ha & Hb & Hc).
    split; [assumption|].
    change (totalSupply st) with 0 in Hb.
    change (balance st (msg_sender env)) with 0 in Hc.
    split; lia.
Qed.

(** C9. The balances add up to [totalSupply]: the constructor's mint
    establishes it on the fresh storage, with the whole supply on the
    deployer; every call (transfer, transferFrom,
    transferWithAuthorization, and approve and cancelAuthorization, which
    do not touch the ledger) preserves it and leaves [totalSupply] as it
    was, and so does any sequence of calls; and a successful transfer of
    any of the three kinds has moved exactly [value] from the sender to
    the recipient. *)
Theorem balances_sum_to_totalSupply st :
  supply_invariant st ->
  (forall env _name _symbol _decimals _initialSupply,
     is_uint256 _initialSupply ->
     exists st0,
       constructor env _name _symbol _decimals _initialSupply empty_storage
       = inr (tt, st0) /\
       supply_invariant st0 /\
       totalSupply st0 = _initialSupply /\
       balance st0 (msg_sender env) = _initialSupply) /\
  (forall env c,
     call_well_typed c ->
     supply_invariant (step env c st) /\
     totalSupply (step env c st) = totalSupply st) /\
  (forall txs,
     Forall (fun tx => call_well_typed tx.2) txs ->
     supply_invariant (run txs st) /\
     totalSupply (run txs st) = totalSupply st) /\
  (forall env to value st',
     is_uint256 value ->
     transfer env to value st = inr (true, st') ->
     moved (msg_sender env) to value st st') /\
  (forall env from to value st',
     is_uint256 value ->
     transferFrom env from to value st = inr (true, st') ->
     moved from to value st st') /\
  (forall env from to value va vb nonce v r s st',
     is_uint256 value ->
     transferWithAuthorization env from to value va vb nonce v r s st
     = inr (tt, st') ->
     moved from to value st st').
Proof.
  intros Hinv. split; [|split; [|split; [|split; [|split]]]].
  - intros env n sy d supply Hs. by apply constructor_invariant.
  - intros env c Hc. by apply step_invariant.
  - intros txs Hall. by apply run_invariant.
  - intros env to value st' Hv. rewrite transfer_eq.
    destruct (_transfer _ _ _ _) as [e|[[] st'']] eqn:E; [discriminate|].
    intros [= <-]. by apply (_transfer_moved _ _ _ _ _ Hinv Hv E).
  - intros env from to value st' Hv. rewrite transferFrom_eq. cbn zeta.
    destruct (negb _); [discriminate|].
    destruct (_transfer _ _ _ _) as [e|[[] st'']] eqn:E; [discriminate|].
    intros [= <-].
    apply _transfer_moved in E as (_ & Hm); [|by case_bool_decide|done].
    revert Hm. by case_bool_decide.
  - intros env from to value va vb nonce v r s st' Hv E.
    apply transferWithAuthorization_inv in E as (_ & _ & _ & E).
    apply _transfer_moved in E as (_ & Hm); [exact Hm| |done].
    revert Hinv. by apply supply_invariant_ext.
Qed.

End TokenFacts.

(** ** Part II, facts *)

Section BuilderFacts.
Import Builder.
Context `{Ethers}.

(** Peels one [toBeHex] off a script that is assumed to return. *)
Ltac peel :=
  match goal with
  | |- context [mbind _ (toBeHex ?v)] =>
      let x := fresh "x" in
      destruct (toBeHex v) as [x|]; cbn [mbind option_bind];
      [|discriminate]
  end.

Lemma yParity_hex_minimal key digest :
  yParity_hex (sign key digest) = be_minimal (yParity (sign key digest)).
Proof.
  unfold yParity_hex, yParity.
  destruct (v (sign key digest) =? 27); reflexivity.
Qed.

Lemma toBeHex_in_range n :
  0 <= n <= MAX_SAFE_INTEGER -> is_Some (toBeHex (JsNumber n)).
Proof.
  intros Hn. unfold toBeHex, getUint.
  replace (0 <=? n) with true by (symmetry; apply Z.leb_le; lia).
  replace (n <=? MAX_SAFE_INTEGER) with true by (symmetry; apply Z.leb_le; lia).
  cbn. eauto.
Qed.

Lemma toBeHex_bigint n : 0 <= n -> is_Some (toBeHex (JsBigInt n)).
Proof.
  intros Hn. unfold toBeHex, getUint.
  replace (0 <=? n) with true by (symmetry; apply Z.leb_le; lia).
  cbn. eauto.
Qed.

Lemma toBeHex_zero : toBeHex (JsNumber 0) = Some [0].
Proof. reflexivity. Qed.

(** What the scripts have computed when they return. *)
Lemma executeERC20Transfer_inv tokenHolderPk gasPayerPk delegate calldata
    provider b :
  executeERC20Transfer tokenHolderPk gasPayerPk delegate calldata provider
  = Some b ->
  exists a_chainId a_nonce tip gasLimit t_nonce t_maxFee,
    toBeHex (JsBigInt (chainId provider)) = Some a_chainId /\
    toBeHex (JsNumber (getTransactionCount provider
                         (address_of tokenHolderPk))) = Some a_nonce /\
    toBeHex (js_or (maxPriorityFeePerGas (getFeeData provider)) (JsBigInt 0))
    = Some tip /\
    toBeHex (JsNumber 300000) = Some gasLimit /\
    toBeHex (JsNumber (getTransactionCount provider
                         (address_of gasPayerPk))) = Some t_nonce /\
    toBeHex (maxFeePerGas (getFeeData provider)) = Some t_maxFee /\
    b = assemble tokenHolderPk gasPayerPk a_chainId delegate a_nonce
          a_chainId t_nonce (if bool_decide (tip = [0]) then [] else tip)
          t_maxFee gasLimit (address_of tokenHolderPk) calldata.
Proof.
  unfold executeERC20Transfer. do 6 peel.
  intros Hb. apply (inj Some) in Hb. subst b.
  do 6 eexists. repeat (split; [reflexivity|]). reflexivity.
Qed.

Lemma self_sponsored_inv gas key delegate calldata provider b :
  self_sponsored gas key delegate calldata provider = Some b ->
  exists a_chainId a_nonce tip t_nonce t_maxFee gasLimit,
    toBeHex (JsBigInt (chainId provider)) = Some a_chainId /\
    toBeHex (JsNumber (getTransactionCount provider (address_of key) + 1))
    = Some a_nonce /\
    toBeHex (maxPriorityFeePerGas (getFeeData provider)) = Some tip /\
    toBeHex (JsNumber (getTransactionCount provider (address_of key)))
    = Some t_nonce /\
    toBeHex (maxFeePerGas (getFeeData provider)) = Some t_maxFee /\
    toBeHex (JsNumber gas) = Some gasLimit /\
    b = assemble key key a_chainId delegate a_nonce
          a_chainId t_nonce (if bool_decide (tip = [0]) then [] else tip)
          t_maxFee gasLimit (address_of key) calldata.
Proof.
  unfold self_sponsored. do 6 peel.
  intros Hb. apply (inj Some) in Hb. subst b.
  do 6 eexists. repeat (split; [reflexivity|]). reflexivity.
Qed.

Lemma assemble_wire_format authorizerPk payerPk a_chainId delegate a_nonce
    t_chainId t_nonce tip t_maxFee gasLimit to calldata :
  wire_format payerPk to calldata
    (assemble authorizerPk payerPk a_chainId delegate a_nonce
       t_chainId t_nonce tip t_maxFee gasLimit to calldata).
Proof.
  split; [|split; [|split]].
  - by exists t_chainId, t_nonce, tip, t_maxFee, gasLimit.
  - reflexivity.
  - reflexivity.
  - unfold spec_signed_transaction, spec_transaction_digest.
    rewrite <- yParity_hex_minimal. reflexivity.
Qed.

Lemma assemble_authorization_signed authorizerPk payerPk a_chainId delegate
    a_nonce t_chainId t_nonce tip t_maxFee gasLimit to calldata :
  authorization_signed authorizerPk
    (assemble authorizerPk payerPk a_chainId delegate a_nonce
       t_chainId t_nonce tip t_maxFee gasLimit to calldata).
Proof.
  split; [reflexivity|]. split; [reflexivity|]. cbn zeta.
  split; [apply yParity_hex_minimal|]. split; reflexivity.
Qed.
(** The scripts return on answers in range. *)
Lemma executeERC20Transfer_returns tokenHolderPk gasPayerPk delegate calldata
    provider :
  provider_in_range provider -> tip_is_bigint_or_null provider ->
  is_Some (executeERC20Transfer tokenHolderPk gasPayerPk delegate calldata
             provider).
Proof.
  intros (Hn & Hc & fee & Hfee & Hf) Htip. unfold executeERC20Transfer.
  destruct (toBeHex_bigint _ Hc) as [c ->]. cbn [mbind option_bind].
  pose proof (Hn (address_of tokenHolderPk)) as Hth.
  destruct (toBeHex_in_range
              (getTransactionCount provider (address_of tokenHolderPk)))
    as [n1 ->]; [lia|].
  cbn [mbind option_bind].
  assert (is_Some (toBeHex (js_or (maxPriorityFeePerGas (getFeeData provider))
                              (JsBigInt 0)))) as [t ->].
  { destruct Htip as [-> | (tip & -> & Ht)]; cbn [js_or]; [by eexists|].
    destruct (tip =? 0); [by eexists|]. by apply toBeHex_bigint. }
  cbn [mbind option_bind].
  destruct (toBeHex_in_range 300000) as [g ->];
    [unfold MAX_SAFE_INTEGER; lia|].
  cbn [mbind option_bind].
  pose proof (Hn (address_of gasPayerPk)) as Hgp.
  destruct (toBeHex_in_range
              (getTransactionCount provider (address_of gasPayerPk)))
    as [n2 ->]; [lia|].
  cbn [mbind option_bind].
  rewrite Hfee. destruct (toBeHex_bigint _ Hf) as [m ->].
  cbn [mbind option_bind]. by eexists.
Qed.

Lemma self_sponsored_returns gas key delegate calldata provider :
  0 <= gas <= MAX_SAFE_INTEGER ->
  provider_in_range provider -> tip_is_bigint provider ->
  is_Some (self_sponsored gas key delegate calldata provider).
Proof.
  intros Hg (Hn & Hc & fee & Hfee & Hf) (tip & Htip & Ht).
  unfold self_sponsored.
  destruct (toBeHex_bigint _ Hc) as [c ->]. cbn [mbind option_bind].
  pose proof (Hn (address_of key)) as Hk.
  destruct (toBeHex_in_range
              (getTransactionCount provider (address_of key) + 1))
    as [n1 ->]; [lia|].
  cbn [mbind option_bind].
  rewrite Htip. destruct (toBeHex_bigint _ Ht) as [t ->].
  cbn [mbind option_bind].
  destruct (toBeHex_in_range
              (getTransactionCount provider (address_of key)))
    as [n2 ->]; [lia|].
  cbn [mbind option_bind].
  rewrite Hfee. destruct (toBeHex_bigint _ Hf) as [m ->].
  cbn [mbind option_bind].
  destruct (toBeHex_in_range gas Hg) as [g ->].
  cbn [mbind option_bind]. by eexists.
Qed.

(** *** The signed transaction *)

(** C5. On answers in range each script returns, and what it returns
    has the wire format: the type octet 0x04 before the RLP of the field
    sequence with (yParity, r, s) appended, the signature being that of
    the paying key over keccak256 of 0x04 and the RLP of the unsigned
    sequence. The octets are a function of the fields and the key: two
    builds with the same fields and paying key are identical. *)
Theorem signed_transaction_wire_format :
  (forall tokenHolderPk gasPayerPk delegate calldata provider,
     provider_in_range provider -> tip_is_bigint_or_null provider ->
     exists b,
       executeERC20Transfer tokenHolderPk gasPayerPk delegate calldata
         provider = Some b /\
       wire_format gasPayerPk (address_of tokenHolderPk) calldata b) /\
  (forall gas key delegate calldata provider,
     0 <= gas <= MAX_SAFE_INTEGER ->
     provider_in_range provider -> tip_is_bigint provider ->
     exists b,
       self_sponsored gas key delegate calldata provider = Some b /\
       wire_format key (address_of key) calldata b) /\
  (forall tokenHolderPk gasPayerPk delegate calldata provider b,
     executeERC20Transfer tokenHolderPk gasPayerPk delegate calldata provider
     = Some b ->
     wire_format gasPayerPk (address_of tokenHolderPk) calldata b) /\
  (forall gas key delegate calldata provider b,
     self_sponsored gas key delegate calldata provider = Some b ->
     wire_format key (address_of key) calldata b) /\
  (forall payerPk to to' calldata calldata' b b',
     wire_format payerPk to calldata b ->
     wire_format payerPk to' calldata' b' ->
     txData b = txData b' -> signedTx b = signedTx b').
Proof.
  assert (H1 : forall tokenHolderPk gasPayerPk delegate calldata provider b,
     executeERC20Transfer tokenHolderPk gasPayerPk delegate calldata provider
     = Some b ->
     wire_format gasPayerPk (address_of tokenHolderPk) calldata b).
  { intros * Hb.
    apply executeERC20Transfer_inv in Hb
      as (? & ? & ? & ? & ? & ? & _ & _ & _ & _ & _ & _ & ->).
    apply assemble_wire_format. }
  assert (H2 : forall gas key delegate calldata provider b,
     self_sponsored gas key delegate calldata provider = Some b ->
     wire_format key (address_of key) calldata b).
  { intros * Hb.
    apply self_sponsored_inv in Hb
      as (? & ? & ? & ? & ? & ? & _ & _ & _ & _ & _ & _ & ->).
    apply assemble_wire_format. }
  split; [|split; [|split; [exact H1|split; [exact H2|]]]].
  - intros * Hp Ht.
    destruct (executeERC20Transfer_returns tokenHolderPk gasPayerPk delegate
                calldata provider Hp Ht) as [b Hb].
    exists b. split; [assumption|]. by eapply H1.
  - intros * Hg Hp Ht.
    destruct (self_sponsored_returns gas key delegate calldata provider
                Hg Hp Ht) as [b Hb].
    exists b. split; [assumption|]. by eapply H2.
  - intros * (_ & _ & _ & E) (_ & _ & _ & E') Heq. by rewrite E, E', Heq.
Qed.

(** *** The authorization *)

(** C6. In every script the authorizer's key signs keccak256 of the
    octet 0x05 followed by RLP(chainId, delegate address, nonce), with
    the chain id of the network and the delegate the script was given,
    and the result is what the authorization carries. The payload of an
    authorization begins with 0x05, that of a transaction with 0x04, so
    no authorization payload is a transaction payload. *)
Theorem authorization_signing_payload :
  (forall tokenHolderPk gasPayerPk delegate calldata provider b,
     executeERC20Transfer tokenHolderPk gasPayerPk delegate calldata provider
     = Some b ->
     authorization_signed tokenHolderPk b /\
     authorization_address b = delegate /\
     toBeHex (JsBigInt (chainId provider)) = Some (authorization_chainId b)) /\
  (forall gas key delegate calldata provider b,
     self_sponsored gas key delegate calldata provider = Some b ->
     authorization_signed key b /\
     authorization_address b = delegate /\
     toBeHex (JsBigInt (chainId provider)) = Some (authorization_chainId b)) /\
  AUTHORIZATION_MAGIC = 5 /\ TRANSACTION_TYPE = 4 /\
  (forall chainId address nonce fields,
     hd 0 (spec_authorization_payload chainId address nonce) = 5 /\
     spec_authorization_payload chainId address nonce
     <> TRANSACTION_TYPE :: encodeRlp (RlpArray fields)).
Proof.
  split; [|split; [|split; [reflexivity|split; [reflexivity|]]]].
  - intros * Hb.
    apply executeERC20Transfer_inv in Hb
      as (? & ? & ? & ? & ? & ? & Hc & _ & _ & _ & _ & _ & ->).
    split; [apply assemble_authorization_signed|]. split; [reflexivity|].
    exact Hc.
  - intros * Hb.
    apply self_sponsored_inv in Hb
      as (? & ? & ? & ? & ? & ? & Hc & _ & _ & _ & _ & _ & ->).
    split; [apply assemble_authorization_signed|]. split; [reflexivity|].
    exact Hc.
  - intros. split; [reflexivity|].
    unfold spec_authorization_payload, AUTHORIZATION_MAGIC, TRANSACTION_TYPE.
    intros [= ?].
Qed.

(** *** Zero-valued fields *)

(** C4, on the code. The scripts turn a zero tip into the empty string,
    but an account nonce of zero goes through [toBeHex] alone: the
    transaction nonce of a sender that has sent nothing yet is the single
    octet 0x00, and so is the authorization nonce of a token holder that
    has sent nothing yet. Under RLP the two differ: 0x00 stays 0x00, the
    empty string is 0x80. *)
Theorem zero_nonce_is_single_zero_octet :
  (forall tokenHolderPk gasPayerPk delegate calldata provider b,
     executeERC20Transfer tokenHolderPk gasPayerPk delegate calldata provider
     = Some b ->
     (getTransactionCount provider (address_of gasPayerPk) = 0 ->
      txData b !! 1%nat = Some (RlpData [0])) /\
     (getTransactionCount provider (address_of tokenHolderPk) = 0 ->
      authorization_nonce b = [0]) /\
     (maxPriorityFeePerGas (getFeeData provider) = JsBigInt 0 ->
      txData b !! 2%nat = Some (RlpData []))) /\
  (forall gas key delegate calldata provider b,
     self_sponsored gas key delegate calldata provider = Some b ->
     (getTransactionCount provider (address_of key) = 0 ->
      txData b !! 1%nat = Some (RlpData [0])) /\
     (maxPriorityFeePerGas (getFeeData provider) = JsBigInt 0 ->
      txData b !! 2%nat = Some (RlpData []))) /\
  encodeRlp (RlpData [0]) = [0] /\
  encodeRlp (RlpData []) = [128].
Proof.
  split; [|split; [|split; reflexivity]].
  - intros * Hb.
    apply executeERC20Transfer_inv in Hb
      as (? & n & tip & ? & m & ? & _ & Hn & Htip & _ & Hm & _ & ->).
    split; [|split].
    + intros E. rewrite E, toBeHex_zero in Hm. by injection Hm as <-.
    + intros E. rewrite E, toBeHex_zero in Hn. by injection Hn as <-.
    + intros E. rewrite E in Htip. cbn in Htip. by injection Htip as <-.
  - intros * Hb.
    apply self_sponsored_inv in Hb
      as (? & ? & tip & m & ? & ? & _ & _ & Htip & Hm & _ & _ & ->).
    split.
    + intros E. rewrite E, toBeHex_zero in Hm. by injection Hm as <-.
    + intros E. rewrite E in Htip. cbn in Htip. by injection Htip as <-.
Qed.

End BuilderFacts.

(** ** Runs on concrete inputs *)

Section TokenRuns.
Import Token.

Lemma scenario_transfer_runs :
  scenario_transfer 1000 scenario_deployed = inr (tt, scenario_used).
Proof. vm_compute. reflexivity. Qed.

Lemma scenario_cancel_runs :
  scenario_cancel scenario_deployed = inr (tt, scenario_canceled).
Proof. vm_compute. reflexivity. Qed.

Lemma scenario_deployed_invariant : supply_invariant scenario_deployed.
Proof.
  destruct (@constructor_invariant toy (scenario_env 1000)
              "T"%string "T"%string 18 100) as (st0 & E & Hi & _).
  - unfold is_uint256, MAX_UINT256. lia.
  - unfold scenario_deployed, commit. rewrite E. exact Hi.
Qed.

(** The authorization of the scenario is consumed by the transfer; once
    it is, the same call again, still inside the window, is turned away
    as already consumed. *)
Lemma authorization_record_consumed_once_witness :
  auth_state scenario_used (@_authKey toy 1 77) = Used /\
  fails_with (scenario_transfer 1000) scenario_used "USED_OR_CANCELLED".
Proof.
  assert (Hc : @consumes toy 1 77 scenario_deployed scenario_used Used).
  { left. split; [reflexivity|].
    exists (scenario_env 1000), 2, 25, 940, 4600, 27, 1, scenario_digest.
    exact scenario_transfer_runs. }
  pose proof (@authorization_record_consumed_once toy 1 77 scenario_deployed
                scenario_used Used [] Hc) as Hw.
  cbn zeta in Hw. cbn [run] in Hw.
  destruct Hw as (_ & _ & Hu & _ & _ & Ht & _).
  split; [exact Hu|].
  apply (Ht (scenario_env 1000) 2 25 940 4600 27 1 scenario_digest).
  - cbn. lia.
  - vm_compute. reflexivity.
Defined.

(** The same authorization replayed after its window has closed: the
    record is Used, yet the call fails on the time check, which comes
    first, and not with the already-consumed reason. *)
Lemma replay_after_expiry_fails_on_time :
  scenario_transfer 1000 scenario_deployed = inr (tt, scenario_used) /\
  auth_state scenario_used (@_authKey toy 1 77) = Used /\
  fails_with (scenario_transfer 5000) scenario_used "TIME_EXPIRED" /\
  ~ fails_with (scenario_transfer 5000) scenario_used "USED_OR_CANCELLED".
Proof.
  split; [vm_compute; reflexivity|].
  split; [vm_compute; reflexivity|].
  split; [vm_compute; reflexivity|].
  vm_compute. discriminate.
Qed.

Lemma transferWithAuthorization_time_window_witness :
  fails_with (scenario_transfer 5000) scenario_deployed "TIME_EXPIRED" /\
  fails_with (scenario_transfer 940) scenario_deployed "TIME_NOT_YET".
Proof.
  destruct (@transferWithAuthorization_time_window toy (scenario_env 5000)
              1 2 25 940 4600 77 27 1 scenario_digest scenario_deployed)
    as (_ & _ & Hlate & _).
  destruct (@transferWithAuthorization_time_window toy (scenario_env 940)
              1 2 25 940 4600 77 27 1 scenario_digest scenario_deployed)
    as (_ & Hearly & _).
  split; [apply Hlate; cbn; lia|apply Hearly; cbn; lia].
Defined.

(** An authorization for 250 against a balance of 100: the call reverts
    with BALANCE and the record is Unused afterwards. *)
Lemma transferWithAuthorization_atomic_witness :
  let call :=
    @transferWithAuthorization toy (scenario_env 1000) 1 2 250 940 4600 78
      27 1 (@transfer_digest toy scenario_deployed 1 2 250 940 4600 78) in
  fails_with call scenario_deployed "BALANCE" /\
  auth_state (commit call scenario_deployed) (@_authKey toy 1 78) = Unused.
Proof.
  cbn zeta.
  destruct (@transferWithAuthorization_atomic toy (scenario_env 1000)
              1 2 250 940 4600 78 27 1
              (@transfer_digest toy scenario_deployed 1 2 250 940 4600 78)
              scenario_deployed) as (_ & _ & _ & _ & Hshort).
  destruct Hshort as (_ & _ & Hf & _ & Hu).
  - cbn. lia.
  - vm_compute. reflexivity.
  - vm_compute. reflexivity.
  - vm_compute. reflexivity.
  - split; assumption.
Defined.

(** With the zero address as authorizer a signature that recovers to
    nothing is accepted: the cancellation goes through. *)
Lemma signature_check_exact_witness :
  @cancelAuthorization toy (scenario_env 1000) 0 78 27 0 0 scenario_deployed
  = inr (tt, @canceled toy 0 78 scenario_deployed).
Proof.
  destruct (@signature_check_exact toy (scenario_env 1000) 0 2 25 940 4600 78
              27 0 0 scenario_deployed) as (_ & _ & _ & Hzero).
  apply Hzero; vm_compute; reflexivity.
Defined.

Lemma balances_sum_to_totalSupply_witness :
  supply_invariant
    (@step toy (scenario_env 1000)
       (CallTransferWithAuthorization 1 2 25 940 4600 77 27 1 scenario_digest)
       scenario_deployed) /\
  moved 1 2 25 scenario_deployed scenario_used.
Proof.
  destruct (@balances_sum_to_totalSupply toy scenario_deployed
              scenario_deployed_invariant) as (_ & Hstep & _ & _ & _ & Hm).
  split.
  - apply Hstep. unfold call_well_typed, is_uint256, MAX_UINT256. lia.
  - apply (Hm (scenario_env 1000) 1 2 25 940 4600 77 27 1 scenario_digest).
    + unfold is_uint256, MAX_UINT256. lia.
    + exact scenario_transfer_runs.
Defined.

Lemma cancelAuthorization_frame_witness :
  auth_state scenario_canceled (@_authKey toy 3 78) = Canceled /\
  balanceOf scenario_canceled = balanceOf scenario_deployed /\
  totalSupply scenario_canceled = totalSupply scenario_deployed.
Proof.
  destruct (@cancelAuthorization_frame toy (scenario_env 1000) 3 78 27 3
              scenario_cancel_digest
              scenario_deployed scenario_canceled scenario_cancel_runs)
    as (Hc & _ & _ & Hb & _ & Ht & _).
  auto.
Defined.

End TokenRuns.

Section BuilderRuns.
Import Builder.

Lemma scenario_provider_in_range count :
  0 <= count < MAX_SAFE_INTEGER -> provider_in_range (scenario_provider count).
Proof.
  intros Hc. split; [intros a; exact Hc|]. split; [cbn; lia|].
  exists 7. split; [reflexivity|lia].
Qed.

Lemma small_count_in_range : 0 <= 5 < MAX_SAFE_INTEGER.
Proof. unfold MAX_SAFE_INTEGER. lia. Qed.

(** A sponsored and a self-sponsored build on a network where every
    account has sent five transactions. *)
Lemma signed_transaction_wire_format_witness :
  (exists b,
     @executeERC20Transfer toy [1] [2] scenario_delegate [1; 2; 3]
       (scenario_provider 5) = Some b /\
     @wire_format toy [2] (@address_of toy [1]) [1; 2; 3] b) /\
  (exists b,
     @part_000 toy [1] scenario_delegate [1; 2; 3] (scenario_provider 5)
     = Some b /\
     @wire_format toy [1] (@address_of toy [1]) [1; 2; 3] b).
Proof.
  destruct (@signed_transaction_wire_format toy) as (H1 & H2 & _).
  split.
  - apply H1.
    + apply scenario_provider_in_range, small_count_in_range.
    + right. exists 0. split; [reflexivity|lia].
  - apply H2.
    + unfold MAX_SAFE_INTEGER. lia.
    + apply scenario_provider_in_range, small_count_in_range.
    + exists 0. split; [reflexivity|lia].
Defined.

Lemma authorization_signing_payload_witness :
  exists b,
    @executeERC20Transfer toy [1] [2] scenario_delegate [1; 2; 3]
      (scenario_provider 5) = Some b /\
    @authorization_signed toy [1] b /\
    authorization_address b = scenario_delegate.
Proof.
  destruct (@executeERC20Transfer_returns toy [1] [2] scenario_delegate
              [1; 2; 3] (scenario_provider 5)) as [b Hb].
  - apply scenario_provider_in_range, small_count_in_range.
  - right. exists 0. split; [reflexivity|lia].
  - exists b. split; [exact Hb|].
    destruct (@authorization_signing_payload toy) as (H1 & _).
    destruct (H1 _ _ _ _ _ _ Hb) as (Hs & Ha & _). auto.
Defined.

(** A gas payer and a token holder that have sent nothing yet. *)
Lemma zero_nonce_is_single_zero_octet_witness :
  exists b,
    @executeERC20Transfer toy [1] [2] scenario_delegate [1; 2; 3]
      (scenario_provider 0) = Some b /\
    txData b !! 1%nat = Some (RlpData [0]) /\
    authorization_nonce b = [0] /\
    txData b !! 2%nat = Some (RlpData []).
Proof.
  destruct (@executeERC20Transfer_returns toy [1] [2] scenario_delegate
              [1; 2; 3] (scenario_provider 0)) as [b Hb].
  - apply scenario_provider_in_range. unfold MAX_SAFE_INTEGER. lia.
  - right. exists 0. split; [reflexivity|lia].
  - exists b. split; [exact Hb|].
    destruct (@zero_nonce_is_single_zero_octet toy) as (Hs & _).
    destruct (Hs _ _ _ _ _ _ Hb) as (H1 & H2 & H3).
    split; [by apply H1|]. split; [by apply H2|by apply H3].
Defined.

End BuilderRuns.

(** ** Part I, further facts: the ERC-20 entry points *)

Section TokenLedgerFacts.
Import Token.
Context `{Precompiles}.

Lemma _transfer_frame from to value st st' :
  _transfer from to value st = inr (tt, st') ->
  value <= balance st from /\
  allowance st' = allowance st /\
  authorizationState st' = authorizationState st /\
  totalSupply st' = totalSupply st /\
  metadata st' = metadata st /\
  events st' = events st ++ [Transfer from to value].
Proof.
  rewrite _transfer_eq.
  destruct (value <=? balance st from) eqn:E; [|discriminate].
  intros [= <-]. apply Z.leb_le in E. repeat split; assumption.
Qed.

Lemma _transfer_short from to value st :
  balance st from < value -> _transfer from to value st = inl (Error "BALANCE").
Proof.
  intros Hb. rewrite _transfer_eq.
  destruct (value <=? balance st from) eqn:E; [|reflexivity].
  apply Z.leb_le in E. lia.
Qed.

Lemma _transfer_enough from to value st :
  value <= balance st from -> exists st', _transfer from to value st = inr (tt, st').
Proof.
  intros Hb. rewrite _transfer_eq.
  destruct (value <=? balance st from) eqn:E; [eauto|].
  apply Z.leb_gt in E. lia.
Qed.

Lemma transfer_inv env to value st b st' :
  transfer env to value st = inr (b, st') ->
  b = true /\ _transfer (msg_sender env) to value st = inr (tt, st').
Proof.
  rewrite transfer_eq.
  destruct (_transfer _ _ _ _) as [e|[[] st'']]; [discriminate|].
  by intros [= <- <-].
Qed.

(** The storage [transferFrom] hands to [_transfer]. *)
Lemma transferFrom_inv env from to value st b st' :
  transferFrom env from to value st = inr (b, st') ->
  let a := allowed_of st from (msg_sender env) in
  b = true /\ value <= a /\
  _transfer from to value
    (if bool_decide (a <> MAX_UINT256)
     then set_allowance from (msg_sender env) (a - value) st else st)
  = inr (tt, st').
Proof.
  rewrite transferFrom_eq. cbn zeta.
  destruct (value <=? allowed_of st from (msg_sender env)) eqn:Ea;
    [|discriminate].
  cbn [negb]. apply Z.leb_le in Ea.
  destruct (_transfer _ _ _ _) as [e|[[] st'']]; [discriminate|].
  by intros [= <- <-].
Qed.

Lemma transferFrom_allowance env from to value st b st' :
  transferFrom env from to value st = inr (b, st') ->
  let a := allowed_of st from (msg_sender env) in
  allowed_of st' from (msg_sender env)
  = (if decide (a = MAX_UINT256) then a else a - value) /\
  (forall o sp, (o, sp) <> (from, msg_sender env) ->
     allowed_of st' o sp = allowed_of st o sp).
Proof.
  intros E. apply transferFrom_inv in E as (_ & _ & E). cbn zeta in *.
  apply _transfer_frame in E as (_ & Hal & _).
  revert Hal. case_bool_decide as Hm; intros Hal.
  - rewrite decide_False by assumption.
    split; [unfold allowed_of at 1; rewrite Hal; cbn;
            by rewrite lookup_insert_eq|].
    intros o sp Hne. unfold allowed_of. rewrite Hal. cbn.
    by rewrite lookup_insert_ne.
  - destruct (decide _) as [_|Hne]; [|exfalso; exact (Hne Hm)].
    unfold allowed_of. rewrite Hal. by split.
Qed.

Lemma transferFrom_succeeds_iff env from to value st :
  succeeds (transferFrom env from to value) st <->
  value <= allowed_of st from (msg_sender env) /\ value <= balance st from.
Proof.
  unfold succeeds. split.
  - intros (b & st' & E). apply transferFrom_inv in E as (_ & Ha & E).
    apply _transfer_frame in E as (Hb & _).
    split; [exact Ha|]. revert Hb. by case_bool_decide.
  - intros [Ha Hb]. rewrite transferFrom_eq. cbn zeta.
    destruct (value <=? allowed_of st from (msg_sender env)) eqn:Ea;
      [|apply Z.leb_gt in Ea; lia].
    cbn [negb].
    match goal with |- context [_transfer from to value ?s] =>
      destruct (_transfer_enough from to value s) as [st' ->] end;
      [by case_bool_decide|eauto].
Qed.

Lemma approve_eq env spender value st :
  approve env spender value st =
  inr (true, log (Approval (msg_sender env) spender value)
               (set_allowance (msg_sender env) spender value st)).
Proof. reflexivity. Qed.

(** X1. [transfer] goes through exactly when the sender's balance covers
    the amount, so an amount of zero always does; otherwise it reverts
    with BALANCE and nothing is written. A successful transfer returns
    true, logs one Transfer event from the sender and touches neither
    allowances, nor authorization records, nor the supply or the
    metadata. *)
Theorem transfer_exact env to value st :
  (succeeds (transfer env to value) st <->
   value <= balance st (msg_sender env)) /\
  (balance st (msg_sender env) < value ->
   fails_with (transfer env to value) st "BALANCE" /\
   commit (transfer env to value) st = st) /\
  (value = 0 -> is_uint256 (balance st (msg_sender env)) ->
   succeeds (transfer env to value) st) /\
  (forall b st',
     transfer env to value st = inr (b, st') ->
     b = true /\
     allowance st' = allowance st /\
     authorizationState st' = authorizationState st /\
     totalSupply st' = totalSupply st /\
     metadata st' = metadata st /\
     events st' = events st ++ [Transfer (msg_sender env) to value]).
Proof.
  assert (Hiff : succeeds (transfer env to value) st <->
                 value <= balance st (msg_sender env)).
  { unfold succeeds. split.
    - intros (b & st' & E). apply transfer_inv in E as (_ & E).
      by apply _transfer_frame in E as (? & _).
    - intros Hb. rewrite transfer_eq.
      destruct (_transfer_enough _ to _ _ Hb) as [st' ->]. eauto. }
  split; [exact Hiff|]. split; [|split].
  - intros Hb. unfold fails_with, commit. rewrite transfer_eq.
    by rewrite (_transfer_short _ to _ _ Hb).
  - intros -> [Hb _]. by apply Hiff.
  - intros b st' E. apply transfer_inv in E as (-> & E).
    apply _transfer_frame in E as (_ & ? & ? & ? & ? & ?).
    split; [reflexivity|]. do 4 (split; [assumption|]). assumption.
Qed.

(** X2. [transferFrom] looks at the allowance first: an allowance below
    the amount reverts with ALLOWANCE whatever the balance; with the
    allowance sufficient a short balance reverts with BALANCE, and the
    allowance stays as it was, the decrement being rolled back. The call
    goes through exactly when both cover the amount; it then returns
    true, lowers the spender's allowance by the amount unless that
    allowance is the maximal [uint256], which is left alone, and changes
    no other allowance. *)
Theorem transferFrom_exact env from to value st :
  let a := allowed_of st from (msg_sender env) in
  let call := transferFrom env from to value in
  (a < value -> fails_with call st "ALLOWANCE") /\
  (value <= a -> balance st from < value ->
   fails_with call st "BALANCE" /\
   allowed_of (commit call st) from (msg_sender env) = a) /\
  (succeeds call st <-> value <= a /\ value <= balance st from) /\
  (forall b st',
     call st = inr (b, st') ->
     b = true /\
     allowed_of st' from (msg_sender env)
     = (if decide (a = MAX_UINT256) then a else a - value) /\
     (forall o sp, (o, sp) <> (from, msg_sender env) ->
        allowed_of st' o sp = allowed_of st o sp) /\
     authorizationState st' = authorizationState st /\
     totalSupply st' = totalSupply st).
Proof.
  cbn zeta. split; [|split; [|split; [apply transferFrom_succeeds_iff|]]].
  - intros Ha. unfold fails_with. rewrite transferFrom_eq. cbn zeta.
    destruct (value <=? _) eqn:E; [|reflexivity]. apply Z.leb_le in E. lia.
  - intros Ha Hb. unfold fails_with, commit. rewrite transferFrom_eq.
    cbn zeta. destruct (value <=? _) eqn:E; [|apply Z.leb_gt in E; lia].
    cbn [negb]. rewrite _transfer_short; [by split|]. by case_bool_decide.
  - intros b st' E.
    destruct (transferFrom_allowance _ _ _ _ _ _ _ E) as (Hsame & Hother).
    apply transferFrom_inv in E as (-> & _ & E).
    apply _transfer_frame in E as (_ & _ & Hrec & Hts & _).
    split; [reflexivity|]. split; [exact Hsame|]. split; [exact Hother|].
    rewrite Hrec, Hts. split; by case_bool_decide.
Qed.

(** X3. [approve] never reverts and overwrites: whatever the spender's
    allowance was, it is the approved amount afterwards, and no balance
    moves. A [transferFrom] by that spender then goes through exactly
    when the amount is within both the approved amount and the owner's
    balance, and leaves the approved amount less the amount spent, or
    the approved amount itself when that is the maximal [uint256]. *)
Theorem approve_then_transferFrom env_o env_s spender to a value st :
  msg_sender env_s = spender ->
  let owner := msg_sender env_o in
  let st1 := commit (approve env_o spender a) st in
  approve env_o spender a st = inr (true, st1) /\
  allowed_of st1 owner spender = a /\
  balanceOf st1 = balanceOf st /\
  (succeeds (transferFrom env_s owner to value) st1 <->
   value <= a /\ value <= balance st owner) /\
  (forall b st2,
     transferFrom env_s owner to value st1 = inr (b, st2) ->
     allowed_of st2 owner spender
     = (if decide (a = MAX_UINT256) then a else a - value)).
Proof.
  intros Hs. cbn zeta. unfold commit. rewrite approve_eq.
  set (st1 := log _ _).
  assert (Ha : allowed_of st1 (msg_sender env_o) spender = a)
    by (unfold allowed_of; cbn; by rewrite lookup_insert_eq).
  split; [reflexivity|]. split; [exact Ha|]. split; [reflexivity|].
  split.
  - rewrite transferFrom_succeeds_iff, Hs, Ha. reflexivity.
  - intros b st2 E.
    destruct (transferFrom_allowance _ _ _ _ _ _ _ E) as (Hsame & _).
    cbn zeta in Hsame. rewrite Hs, Ha in Hsame. exact Hsame.
Qed.

(** X4. Who can change an allowance: when a call changes the allowance
    that [o] has granted to [sp], it is either an [approve] of [sp] sent
    by [o], or a [transferFrom] out of [o]'s account sent by [sp], which
    lowers the allowance by the amount transferred. *)
Theorem allowance_changes_only_by_owner_or_spender env c st o sp :
  allowed_of (step env c st) o sp <> allowed_of st o sp ->
  (exists value, c = CallApprove sp value /\ msg_sender env = o) \/
  (exists to value,
     c = CallTransferFrom o to value /\ msg_sender env = sp /\
     allowed_of (step env c st) o sp = allowed_of st o sp - value).
Proof.
  destruct c as [to value|spender value|from to value
                |from to value va vb nonce v r s|authorizer nonce v r s];
    cbn [step]; unfold commit.
  - intros Hne. exfalso. apply Hne.
    destruct (transfer env to value st) as [e|[b st']] eqn:E; [reflexivity|].
    apply transfer_inv in E as (_ & E).
    apply _transfer_frame in E as (_ & Hal & _).
    unfold allowed_of. by rewrite Hal.
  - rewrite approve_eq. unfold allowed_of. cbn. intros Hne. left.
    destruct (decide ((msg_sender env, spender) = (o, sp))) as [[= <- <-]|Hk].
    + by exists value.
    + exfalso. apply Hne. by rewrite lookup_insert_ne.
  - intros Hne. right.
    destruct (transferFrom env from to value st) as [e|[b st']] eqn:E;
      [exfalso; by apply Hne|].
    destruct (transferFrom_allowance _ _ _ _ _ _ _ E) as (Hsame & Hother).
    cbn zeta in Hsame.
    destruct (decide ((o, sp) = (from, msg_sender env))) as [[= -> ->]|Hk].
    + exists to, value. split; [reflexivity|]. split; [reflexivity|].
      rewrite Hsame in *. destruct (decide _); [exfalso; by apply Hne|].
      reflexivity.
    + exfalso. apply Hne. by apply Hother.
  - intros Hne. exfalso. apply Hne.
    destruct (transferWithAuthorization _ _ _ _ _ _ _ _ _ _ _)
      as [e|[[] st']] eqn:E; [reflexivity|].
    apply transferWithAuthorization_inv in E as (_ & _ & _ & E).
    apply _transfer_frame in E as (_ & Hal & _). unfold allowed_of.
    by rewrite Hal.
  - intros Hne. exfalso. apply Hne.
    destruct (cancelAuthorization _ _ _ _ _ _ _) as [e|[[] st']] eqn:E;
      [reflexivity|].
    by apply cancelAuthorization_inv in E as (_ & _ & ->).
Qed.

(** X5. [transferWithAuthorization] can be relayed by anyone: its result
    depends on the call environment through the block time only, not on
    the sender, and it neither needs nor spends an allowance. *)
Theorem transferWithAuthorization_relayed env env' from to value va vb
    nonce v r s st :
  block_timestamp env' = block_timestamp env ->
  transferWithAuthorization env' from to value va vb nonce v r s st
  = transferWithAuthorization env from to value va vb nonce v r s st /\
  (forall st',
     transferWithAuthorization env from to value va vb nonce v r s st
     = inr (tt, st') ->
     allowance st' = allowance st).
Proof.
  intros Ht. split.
  - rewrite !transferWithAuthorization_eq, Ht. reflexivity.
  - intros st' E. apply transferWithAuthorization_inv in E as (_ & _ & _ & E).
    by apply _transfer_frame in E as (_ & Hal & _).
Qed.

(** What a successful [transferWithAuthorization] leaves of the metadata
    and the log. *)
Lemma transferWithAuthorization_log env from to value va vb nonce v r s
    st st' :
  transferWithAuthorization env from to value va vb nonce v r s st
  = inr (tt, st') ->
  metadata st' = metadata st /\
  events st' = events st ++ [AuthorizationUsed from nonce;
                             Transfer from to value].
Proof.
  intros E. apply transferWithAuthorization_inv in E as (_ & _ & _ & E).
  apply _transfer_frame in E as (_ & _ & _ & _ & Hm & He).
  split; [exact Hm|]. rewrite He. cbn. by rewrite <- app_assoc.
Qed.

(** X6. The frame of a successful [transferWithAuthorization]: it marks
    the one record at the key of (from, nonce), logs AuthorizationUsed
    and then Transfer, and leaves every other record, every balance but
    those of [from] and [to], the allowances, the supply and the
    metadata as they were. *)
Theorem transferWithAuthorization_frame env from to value va vb nonce v r s
    st st' :
  transferWithAuthorization env from to value va vb nonce v r s st
  = inr (tt, st') ->
  auth_state st' (_authKey from nonce) = Used /\
  (forall k, k <> _authKey from nonce ->
     authorizationState st' !! k = authorizationState st !! k) /\
  (forall a, a <> from -> a <> to -> balanceOf st' !! a = balanceOf st !! a) /\
  allowance st' = allowance st /\
  totalSupply st' = totalSupply st /\
  metadata st' = metadata st /\
  events st' = events st ++ [AuthorizationUsed from nonce;
                             Transfer from to value].
Proof.
  intros E. destruct (transferWithAuthorization_log _ _ _ _ _ _ _ _ _ _ _ _ E)
    as (Hm & He).
  apply transferWithAuthorization_inv in E as (_ & _ & _ & E).
  pose proof E as E'. rewrite _transfer_eq in E'.
  destruct (value <=? balance (used from nonce st) from); [|discriminate].
  cbn zeta in E'. injection E' as <-.
  split; [unfold auth_state; cbn; by rewrite lookup_insert_eq|].
  split; [intros k Hk; cbn; by rewrite lookup_insert_ne|].
  split; [intros a Ha1 Ha2; cbn; by rewrite !lookup_insert_ne by congruence|].
  split; [reflexivity|]. split; [reflexivity|]. by split.
Qed.

Lemma step_metadata_events env c st :
  metadata (step env c st) = metadata st /\
  exists new, events (step env c st) = events st ++ new.
Proof.
  assert (Hnil : metadata st = metadata st /\
                 exists new : list Event, events st = events st ++ new)
    by (split; [reflexivity|exists []; by rewrite app_nil_r]).
  destruct c as [to value|spender value|from to value
                |from to value va vb nonce v r s|authorizer nonce v r s];
    cbn [step]; unfold commit.
  - destruct (transfer env to value st) as [e|[b st']] eqn:E; [exact Hnil|].
    apply transfer_inv in E as (_ & E).
    apply _transfer_frame in E as (_ & _ & _ & _ & Hm & He). eauto.
  - rewrite approve_eq. split; [reflexivity|]. cbn. eauto.
  - destruct (transferFrom env from to value st) as [e|[b st']] eqn:E;
      [exact Hnil|].
    apply transferFrom_inv in E as (_ & _ & E). cbn zeta in E.
    apply _transfer_frame in E as (_ & _ & _ & _ & Hm & He).
    rewrite Hm, He. case_bool_decide; eauto.
  - destruct (transferWithAuthorization _ _ _ _ _ _ _ _ _ _ _)
      as [e|[[] st']] eqn:E; [exact Hnil|].
    apply transferWithAuthorization_log in E as (Hm & He). eauto.
  - destruct (cancelAuthorization _ _ _ _ _ _ _) as [e|[[] st']] eqn:E;
      [exact Hnil|].
    apply cancelAuthorization_inv in E as (_ & _ & ->).
    split; [reflexivity|]. cbn. eauto.
Qed.

Lemma run_metadata_events txs st :
  metadata (run txs st) = metadata st /\
  exists new, events (run txs st) = events st ++ new.
Proof.
  revert st. induction txs as [|[env c] txs IH]; intros st.
  - split; [reflexivity|]. exists []. by rewrite app_nil_r.
  - cbn [run]. destruct (IH (step env c st)) as (Hm & new & He).
    destruct (step_metadata_events env c st) as (Hm' & new' & He').
    split; [congruence|]. exists (new' ++ new).
    by rewrite He, He', app_assoc.
Qed.

(** X7. After deployment the metadata is fixed and the log only grows:
    no sequence of calls changes the name, the symbol, the decimals or
    the domain separator, so the digests signatures are checked against
    stay the same, and the events logged before it are a prefix of those
    logged after. *)
Theorem run_keeps_metadata_and_log txs st :
  metadata (run txs st) = metadata st /\
  (exists new, events (run txs st) = events st ++ new) /\
  (forall from to value va vb nonce,
     transfer_digest (run txs st) from to value va vb nonce
     = transfer_digest st from to value va vb nonce) /\
  (forall authorizer nonce,
     cancel_digest (run txs st) authorizer nonce
     = cancel_digest st authorizer nonce).
Proof.
  destruct (run_metadata_events txs st) as (Hm & He).
  split; [exact Hm|]. split; [exact He|].
  assert (Hd : DOMAIN_SEPARATOR (run txs st) = DOMAIN_SEPARATOR st)
    by (unfold metadata in Hm; congruence).
  split; intros; unfold transfer_digest, cancel_digest; by rewrite Hd.
Qed.

(** X8. The view helpers compute, without writing anything, the very
    digests the entry points hand to [ecrecover]. So a signature that
    recovers to [from] on the digest returned by
    [computeTransferWithAuthorizationDigest] makes
    [transferWithAuthorization] go through inside the window on an
    Unused record and a sufficient balance, and one that recovers to the
    authorizer on the digest of [computeCancelAuthorizationDigest] makes
    [cancelAuthorization] go through on an Unused record. *)
Theorem view_digests_are_the_checked_ones env from to value va vb nonce
    v r s st :
  computeTransferWithAuthorizationDigest from to value va vb nonce st
  = inr (transfer_digest st from to value va vb nonce, st) /\
  computeCancelAuthorizationDigest from nonce st
  = inr (cancel_digest st from nonce, st) /\
  (forall digest st',
     computeTransferWithAuthorizationDigest from to value va vb nonce st
     = inr (digest, st') ->
     ecrecover digest v r s = from ->
     va < block_timestamp env < vb ->
     auth_state st (_authKey from nonce) = Unused ->
     value <= balance st from ->
     succeeds (transferWithAuthorization env from to value va vb nonce v r s)
       st) /\
  (forall digest st',
     computeCancelAuthorizationDigest from nonce st = inr (digest, st') ->
     ecrecover digest v r s = from ->
     auth_state st (_authKey from nonce) = Unused ->
     cancelAuthorization env from nonce v r s st
     = inr (tt, canceled from nonce st)).
Proof.
  split; [reflexivity|]. split; [reflexivity|]. split.
  - intros digest st' [= <- <-] Hr Ht Hu Hb. unfold succeeds.
    rewrite transferWithAuthorization_eq.
    destruct (va <? block_timestamp env) eqn:E1; [|lia].
    destruct (block_timestamp env <? vb) eqn:E2; [|lia].
    rewrite !bool_decide_eq_true_2 by assumption. cbn [negb].
    destruct (_transfer_enough from to value (used from nonce st)) as [st' ->];
      [exact Hb|eauto].
  - intros digest st' [= <- <-] Hr Hu. rewrite cancelAuthorization_eq.
    by rewrite !bool_decide_eq_true_2.
Qed.

Lemma supply_invariant_bounds st :
  supply_invariant st ->
  (forall a, 0 <= balance st a <= totalSupply st) /\
  (forall a b, a <> b -> balance st a + balance st b <= totalSupply st).
Proof.
  intros [Hwt Hsum]. unfold sum_balances in Hsum.
  pose proof (well_typed_nonneg st Hwt) as Hnn.
  assert (H2 : forall a b, a <> b ->
            balance st a + balance st b <= totalSupply st).
  { intros a b Hab. rewrite <- Hsum. by apply sum_map_bound2. }
  split; [|exact H2]. intros a.
  pose proof (well_typed_balance st a Hwt) as [Ha _].
  pose proof (well_typed_balance st (a + 1) Hwt) as [Hb _].
  specialize (H2 a (a + 1) ltac:(lia)). lia.
Qed.

(** X9. Nothing mints or burns after deployment. On every storage
    reached from a deployment by calls with [uint256] amounts the supply
    is the initial supply and the balances add up to it; so no balance
    exceeds the supply, no two accounts hold more than the supply
    together, and the unchecked addition on the recipient's side of
    [_transfer] stays below 2^256. *)
Theorem supply_fixed_after_deployment env0 _name _symbol _decimals
    _initialSupply txs :
  is_uint256 _initialSupply ->
  Forall (fun tx => call_well_typed tx.2) txs ->
  let st := run txs (deployed env0 _name _symbol _decimals _initialSupply) in
  totalSupply st = _initialSupply /\
  sum_balances st = _initialSupply /\
  (forall a, 0 <= balance st a <= _initialSupply) /\
  (forall a b, a <> b -> balance st a + balance st b <= _initialSupply) /\
  (forall from to value,
     from <> to -> 0 <= value <= balance st from ->
     wrap256 (balance st to + value) = balance st to + value).
Proof.
  intros Hs Hall. cbn zeta. unfold deployed, commit.
  destruct (constructor_invariant env0 _name _symbol _decimals _initialSupply
              Hs) as (st0 & -> & Hi0 & Hts0 & _).
  destruct (run_invariant txs st0 Hi0 Hall) as [Hi Hts].
  destruct (supply_invariant_bounds _ Hi) as [H1 H2].
  rewrite Hts, Hts0 in *.
  split; [reflexivity|]. split; [by destruct Hi as [_ ->]|].
  split; [exact H1|]. split; [exact H2|].
  intros from to value Hne Hv. apply wrap256_small.
  pose proof (H1 to) as [Hto _]. pose proof (H1 from) as [Hfrom _].
  specialize (H2 from to Hne). unfold is_uint256 in *. lia.
Qed.

(** X10. [_mint] is guarded by checked arithmetic: on a ledger whose
    balances add up to the supply it reverts with panic 0x11 exactly
    when the supply would pass 2^256 - 1, the addition to the balance
    never being the one that overflows; otherwise it raises the supply
    and the recipient's balance by the amount, keeps the balances adding
    up to the supply and logs a Transfer from the zero address. *)
Theorem _mint_checked to value st :
  supply_invariant st -> is_uint256 value ->
  (MAX_UINT256 < totalSupply st + value ->
   _mint to value st = inl (Panic 17)) /\
  (totalSupply st + value <= MAX_UINT256 ->
   exists st',
     _mint to value st = inr (tt, st') /\
     supply_invariant st' /\
     totalSupply st' = totalSupply st + value /\
     balance st' to = balance st to + value /\
     (forall a, a <> to -> balance st' a = balance st a) /\
     events st' = events st ++ [Transfer 0 to value]).
Proof.
  intros Hinv Hv. rewrite _mint_eq. split.
  - intros Ho. destruct (totalSupply st + value <=? MAX_UINT256) eqn:E;
      [apply Z.leb_le in E; lia|reflexivity].
  - intros Hok. destruct (totalSupply st + value <=? MAX_UINT256) eqn:E;
      [|apply Z.leb_gt in E; lia].
    destruct (supply_invariant_bounds _ Hinv) as [H1 _].
    destruct (balance st to + value <=? MAX_UINT256) eqn:E2;
      [|apply Z.leb_gt in E2; specialize (H1 to); lia].
    eexists. split; [reflexivity|].
    assert (Em : _mint to value st
                 = inr (tt, log (Transfer 0 to value)
                              (set_balance to (balance st to + value)
                                 (set_totalSupply (totalSupply st + value)
                                    st))))
      by (rewrite _mint_eq, E, E2; reflexivity).
    destruct (_mint_invariant _ _ _ _ Hinv Hv Em) as (Hi & Hts & Hb).
    split; [exact Hi|]. split; [exact Hts|]. split; [exact Hb|].
    split; [|reflexivity].
    intros a Ha. rewrite balance_log, balance_set_balance.
    by rewrite decide_False by congruence.
Qed.

End TokenLedgerFacts.

(** ** Part III, facts *)

Section TypedDataFacts.
Import Token TypedData.
Context `{Precompiles} `{Signer}.

Lemma encode_address a :
  0 <= a < 2 ^ 160 -> encode_value "address" (VNum a) = Some (be_fixed 32 a).
Proof.
  intros Ha. unfold encode_value. cbn [String.eqb Ascii.eqb Bool.eqb].
  replace (0 <=? a) with true by (symmetry; apply Z.leb_le; lia).
  replace (a <? 2 ^ 160) with true by (symmetry; apply Z.ltb_lt; lia).
  reflexivity.
Qed.

Lemma encode_uint256 n :
  is_uint256 n -> encode_value "uint256" (VNum n) = Some (be_fixed 32 n).
Proof.
  intros [Hlo Hhi]. unfold encode_value.
  cbn [String.eqb Ascii.eqb Bool.eqb orb].
  replace (0 <=? n) with true by (symmetry; apply Z.leb_le; lia).
  replace (n <=? MAX_UINT256) with true by (symmetry; apply Z.leb_le; lia).
  reflexivity.
Qed.

Lemma encode_bytes32 n :
  is_uint256 n -> encode_value "bytes32" (VNum n) = Some (be_fixed 32 n).
Proof.
  intros [Hlo Hhi]. unfold encode_value.
  cbn [String.eqb Ascii.eqb Bool.eqb orb].
  replace (0 <=? n) with true by (symmetry; apply Z.leb_le; lia).
  replace (n <=? MAX_UINT256) with true by (symmetry; apply Z.leb_le; lia).
  reflexivity.
Qed.

Lemma encode_string s :
  encode_value "string" (VStr s)
  = Some (be_fixed 32 (keccak256 (bytes_of_string s))).
Proof. reflexivity. Qed.

(** The [types] table of the scripts spells the type string the
    contract hashes. *)
Lemma TransferWithAuthorization_type_string :
  encodeType "TransferWithAuthorization" TransferWithAuthorization_types
  = "TransferWithAuthorization(address from,address to,uint256 value,uint256 validAfter,uint256 validBefore,bytes32 nonce)"%string.
Proof. reflexivity. Qed.

Lemma hashStruct_transfer from to value va vb nonce :
  0 <= from < 2 ^ 160 -> 0 <= to < 2 ^ 160 -> is_uint256 value ->
  is_uint256 va -> is_uint256 vb -> is_uint256 nonce ->
  hashStruct "TransferWithAuthorization" TransferWithAuthorization_types
    [("from"%string, VNum from); ("to"%string, VNum to);
     ("value"%string, VNum value); ("validAfter"%string, VNum va);
     ("validBefore"%string, VNum vb); ("nonce"%string, VNum nonce)]
  = Some (keccak256 (abi_encode
            [TRANSFER_WITH_AUTHORIZATION_TYPEHASH; from; to; value; va; vb;
             nonce])).
Proof.
  intros Hf Ht Hv Ha Hb Hn. unfold hashStruct.
  rewrite TransferWithAuthorization_type_string.
  unfold TransferWithAuthorization_types.
  cbn [mapM field_name field_type js_get String.eqb Ascii.eqb Bool.eqb
       mbind option_bind].
  rewrite !encode_address, !encode_uint256, encode_bytes32 by assumption.
  cbn [mbind option_bind mret option_ret fmap option_fmap option_map].
  reflexivity.
Qed.

Lemma hashDomain_deployed token_name chainId tokenAddress :
  is_uint256 chainId -> 0 <= tokenAddress < 2 ^ 160 ->
  hashDomain
    [("name"%string, VStr token_name); ("version"%string, VStr "1");
     ("chainId"%string, VNum chainId);
     ("verifyingContract"%string, VNum tokenAddress)]
  = Some (keccak256 (abi_encode
            [_EIP712_DOMAIN_TYPEHASH;
             keccak256 (bytes_of_string token_name);
             keccak256 (bytes_of_string "1");
             chainId; tokenAddress])).
Proof.
  intros Hc Ht. unfold hashDomain.
  change (domain_fields _)
    with [mkField "name" "string"; mkField "version" "string";
          mkField "chainId" "uint256"; mkField "verifyingContract" "address"].
  unfold hashStruct.
  change (encodeType _ _)
    with "EIP712Domain(string name,string version,uint256 chainId,address verifyingContract)"%string.
  cbn [mapM field_name field_type js_get String.eqb Ascii.eqb Bool.eqb
       mbind option_bind].
  rewrite !encode_string, encode_uint256, encode_address by assumption.
  cbn [mbind option_bind mret option_ret fmap option_fmap option_map].
  reflexivity.
Qed.

Lemma deployed_metadata env _name _symbol _decimals _initialSupply :
  is_uint256 _initialSupply ->
  name (deployed env _name _symbol _decimals _initialSupply) = _name /\
  DOMAIN_SEPARATOR (deployed env _name _symbol _decimals _initialSupply)
  = keccak256 (abi_encode
      [_EIP712_DOMAIN_TYPEHASH;
       keccak256 (bytes_of_string _name);
       keccak256 (bytes_of_string "1");
       chainid env; this env]).
Proof.
  intros Hs. unfold deployed, commit. rewrite constructor_eq, _mint_eq.
  change (totalSupply (set_metadata env _name _symbol _decimals empty_storage))
    with 0.
  change (balance (set_metadata env _name _symbol _decimals empty_storage)
            (msg_sender env)) with 0.
  replace (0 + _initialSupply <=? MAX_UINT256) with true
    by (symmetry; apply Z.leb_le; unfold is_uint256 in Hs; lia).
  split; reflexivity.
Qed.

(** The digest the scripts sign, on inputs in range, for a token whose
    separator was made for this chain and this address under this
    name. *)
Lemma signed_authorization_digest amount lead life i st :
  is_uint256 amount -> inputs_in_range lead life i ->
  DOMAIN_SEPARATOR st
  = keccak256 (abi_encode
      [_EIP712_DOMAIN_TYPEHASH;
       keccak256 (bytes_of_string (token_name i));
       keccak256 (bytes_of_string "1");
       chainId i; tokenAddress i]) ->
  signed_authorization amount lead life i
  = let wallet := address_of (PRIVATE_KEY i) in
    let '(v, r, s) :=
      sign (PRIVATE_KEY i)
        (transfer_digest st wallet (recipient i) amount
           (now i - lead) (now i + life) (nonce i)) in
    Some (CallTransferWithAuthorization wallet (recipient i) amount
            (now i - lead) (now i + life) (nonce i) v r s).
Proof.
  intros Ha (Hw & Hr & Ht & Hc & Hl & Hlife & Hn & Hnonce) Hsep.
  unfold signed_authorization, TypedDataEncoder_hash. cbn zeta.
  rewrite hashDomain_deployed by assumption.
  cbn [mbind option_bind].
  rewrite hashStruct_transfer;
    [|assumption|assumption|assumption
     |unfold is_uint256 in *; lia|unfold is_uint256 in *; lia|assumption].
  cbn [mbind option_bind].
  unfold transfer_digest, typed_message_hash. rewrite Hsep. reflexivity.
Qed.

(** X11. The scripts and the contract agree on what is signed. The
    [types] table of the scripts encodes to the type string the contract
    hashes, their domain to the contract's domain type; and on inputs in
    range, for a token deployed under the name, chain id and address the
    script uses, whatever calls have been made since, the typed-data hash
    the wallet signs is the digest [transferWithAuthorization] will
    check for the arguments the script sends. *)
Theorem script_signs_the_contract_digest amount lead life i env0 _symbol
    _decimals _initialSupply txs :
  is_uint256 amount -> inputs_in_range lead life i ->
  is_uint256 _initialSupply ->
  chainid env0 = chainId i -> this env0 = tokenAddress i ->
  let st := run txs (deployed env0 (token_name i) _symbol _decimals
                       _initialSupply) in
  let wallet := address_of (PRIVATE_KEY i) in
  let digest :=
    transfer_digest st wallet (recipient i) amount (now i - lead)
      (now i + life) (nonce i) in
  encodeType "TransferWithAuthorization" TransferWithAuthorization_types
  = "TransferWithAuthorization(address from,address to,uint256 value,uint256 validAfter,uint256 validBefore,bytes32 nonce)"%string /\
  name st = token_name i /\
  exists v r s,
    sign (PRIVATE_KEY i) digest = (v, r, s) /\
    signed_authorization amount lead life i
    = Some (CallTransferWithAuthorization wallet (recipient i) amount
              (now i - lead) (now i + life) (nonce i) v r s).
Proof.
  intros Ha Hi Hs Hc Ht. cbn zeta.
  split; [apply TransferWithAuthorization_type_string|].
  destruct (run_metadata_events txs
              (deployed env0 (token_name i) _symbol _decimals _initialSupply))
    as (Hm & _).
  destruct (deployed_metadata env0 (token_name i) _symbol _decimals
              _initialSupply Hs) as (Hname & Hsep).
  unfold metadata in Hm. injection Hm as Hn _ _ Hd.
  split; [congruence|].
  rewrite Hc, Ht in Hsep. rewrite <- Hd in Hsep.
  rewrite (signed_authorization_digest amount lead life i _ Ha Hi Hsep).
  cbn zeta. destruct (sign _ _) as [[v r] s]. by exists v, r, s.
Qed.

Lemma deployed_invariant env _name _symbol _decimals _initialSupply :
  is_uint256 _initialSupply ->
  supply_invariant (deployed env _name _symbol _decimals _initialSupply).
Proof.
  intros Hs. unfold deployed, commit.
  by destruct (constructor_invariant env _name _symbol _decimals
                 _initialSupply Hs) as (st0 & -> & Hi & _).
Qed.

Lemma consumed_attempt_rolls_back env from to value va vb nonce v r s st :
  auth_state st (_authKey from nonce) <> Unused ->
  commit (transferWithAuthorization env from to value va vb nonce v r s) st
  = st.
Proof.
  intros Hu. unfold commit. rewrite transferWithAuthorization_eq.
  repeat (match goal with |- context [if negb ?b then _ else _] =>
    destruct b eqn:?; cbn [negb]; try reflexivity end).
  exfalso. apply Hu. by eapply bool_decide_eq_true_1.
Qed.

(** X12. From signature to ledger. Take a token deployed under the
    name, chain id and address a script uses, any calls since, a signer
    whose signatures [ecrecover] recovers, and inputs in range. When the
    block time is strictly between [now - lead] and [now + life], the
    record of (wallet, nonce) is Unused and the wallet holds the amount,
    the call the script sends goes through for any sender: the amount
    moves from the wallet to the recipient, the record is Used, and
    sending the same call again, at any time, changes nothing. *)
Theorem signed_authorization_end_to_end amount lead life i env0 _symbol
    _decimals _initialSupply txs env :
  is_uint256 amount -> inputs_in_range lead life i ->
  is_uint256 _initialSupply ->
  chainid env0 = chainId i -> this env0 = tokenAddress i ->
  signatures_recover ->
  Forall (fun tx => call_well_typed tx.2) txs ->
  let st := run txs (deployed env0 (token_name i) _symbol _decimals
                       _initialSupply) in
  let wallet := address_of (PRIVATE_KEY i) in
  now i - lead < block_timestamp env < now i + life ->
  auth_state st (_authKey wallet (nonce i)) = Unused ->
  amount <= balance st wallet ->
  exists c,
    signed_authorization amount lead life i = Some c /\
    moved wallet (recipient i) amount st (step env c st) /\
    auth_state (step env c st) (_authKey wallet (nonce i)) = Used /\
    (forall env', step env' c (step env c st) = step env c st).
Proof.
  intros Ha Hi Hs Hc Ht Hsig Hall. cbn zeta. intros Htime Hu Hb.
  set (st := run txs (deployed env0 (token_name i) _symbol _decimals
                        _initialSupply)) in *.
  set (wallet := address_of (PRIVATE_KEY i)) in *.
  assert (Hinv : supply_invariant st).
  { apply run_invariant; [by apply deployed_invariant|exact Hall]. }
  assert (Hsep : DOMAIN_SEPARATOR st
                 = keccak256 (abi_encode
                     [_EIP712_DOMAIN_TYPEHASH;
                      keccak256 (bytes_of_string (token_name i));
                      keccak256 (bytes_of_string "1");
                      chainId i; tokenAddress i])).
  { destruct (run_metadata_events txs
                (deployed env0 (token_name i) _symbol _decimals
                   _initialSupply)) as (Hm & _).
    destruct (deployed_metadata env0 (token_name i) _symbol _decimals
                _initialSupply Hs) as (_ & Hd).
    unfold metadata in Hm. injection Hm as _ _ _ Hd'.
    subst st. rewrite Hd', Hd, Hc, Ht. reflexivity. }
  rewrite (signed_authorization_digest amount lead life i st Ha Hi Hsep).
  cbn zeta. fold wallet.
  pose proof (Hsig (PRIVATE_KEY i)
                (transfer_digest st wallet (recipient i) amount
                   (now i - lead) (now i + life) (nonce i))) as Hrec.
  destruct (sign _ _) as [[v r] s]. fold wallet in Hrec.
  eexists. split; [reflexivity|]. cbn [step].
  assert (E : transferWithAuthorization env wallet (recipient i) amount
                (now i - lead) (now i + life) (nonce i) v r s st
              = _transfer wallet (recipient i) amount
                  (used wallet (nonce i) st)).
  { rewrite transferWithAuthorization_eq.
    replace (now i - lead <? block_timestamp env) with true
      by (symmetry; apply Z.ltb_lt; lia).
    replace (block_timestamp env <? now i + life) with true
      by (symmetry; apply Z.ltb_lt; lia).
    by rewrite !bool_decide_eq_true_2. }
  destruct (_transfer_enough wallet (recipient i) amount
              (used wallet (nonce i) st) Hb) as [st' Et].
  assert (Hstep : commit (transferWithAuthorization env wallet (recipient i)
                            amount (now i - lead) (now i + life) (nonce i)
                            v r s) st = st')
    by (unfold commit; by rewrite E, Et).
  rewrite !Hstep.
  assert (Hused : auth_state st' (_authKey wallet (nonce i)) = Used).
  { unfold auth_state. rewrite (_transfer_records _ _ _ _ _ Et).
    apply auth_state_used_eq. }
  split; [|split; [exact Hused|]].
  - apply (_transfer_moved wallet (recipient i) amount
             (used wallet (nonce i) st) st'); [|exact Ha|exact Et].
    revert Hinv. by apply supply_invariant_ext.
  - intros env'. apply consumed_attempt_rolls_back. rewrite Hused.
    discriminate.
Qed.

End TypedDataFacts.

(** ** Part II, further facts: the numeric fields and the failures *)

Section HexFacts.
Import Builder.

Lemma length_be_fixed n v : length (be_fixed n v) = n.
Proof.
  revert v. induction n as [|n IH]; intros v; [reflexivity|].
  cbn [be_fixed]. rewrite length_app, IH. cbn. lia.
Qed.

Lemma be_value_snoc l x : be_value (l ++ [x]) = be_value l * 256 + x.
Proof. unfold be_value. by rewrite fold_left_app. Qed.

Lemma be_value_be_fixed n v :
  0 <= v -> be_value (be_fixed n v) = v mod 256 ^ Z.of_nat n.
Proof.
  revert v. induction n as [|n IH]; intros v Hv.
  - cbn. by rewrite Z.mod_1_r.
  - cbn [be_fixed]. rewrite be_value_snoc, IH
      by (apply Z.div_pos; lia).
    rewrite Nat2Z.inj_succ, Z.pow_succ_r by lia.
    rewrite (Z.rem_mul_r v 256 (256 ^ Z.of_nat n)) by lia. lia.
Qed.

Lemma hd_be_fixed n v :
  0 <= v -> hd 0 (be_fixed (S n) v) = (v / 256 ^ Z.of_nat n) mod 256.
Proof.
  revert v. induction n as [|n IH]; intros v Hv.
  - cbn. by rewrite Z.div_1_r.
  - change (be_fixed (S (S n)) v)
      with (be_fixed (S n) (v / 256) ++ [v mod 256]).
    assert (Hl : be_fixed (S n) (v / 256) <> [])
      by (intros E; apply (f_equal length) in E;
          rewrite length_be_fixed in E; discriminate).
    destruct (be_fixed (S n) (v / 256)) as [|x l] eqn:E; [done|].
    cbn [app hd]. change x with (hd 0 (x :: l)). rewrite <- E.
    rewrite IH by (apply Z.div_pos; lia).
    rewrite Nat2Z.inj_succ, Z.pow_succ_r by lia.
    by rewrite Z.div_div by lia.
Qed.

(** The length [be_minimal] takes is the least that holds the number. *)
Lemma be_minimal_bounds v :
  0 < v ->
  let n := Z.to_nat (Z.log2 v / 8) in
  256 ^ Z.of_nat n <= v < 256 ^ Z.of_nat (S n).
Proof.
  intros Hv. cbn zeta.
  pose proof (Z.log2_nonneg v) as Hl.
  pose proof (Z.log2_spec v Hv) as [Hlo Hhi].
  assert (Hq : 0 <= Z.log2 v / 8) by (apply Z.div_pos; lia).
  rewrite Nat2Z.inj_succ, Z2Nat.id by lia.
  change 256 with (2 ^ 8). rewrite <- !Z.pow_mul_r by lia.
  pose proof (Z.mul_div_le (Z.log2 v) 8 ltac:(lia)) as Hd.
  pose proof (Z.mul_succ_div_gt (Z.log2 v) 8 ltac:(lia)) as Hu.
  split.
  - etransitivity; [|exact Hlo]. apply Z.pow_le_mono_r; lia.
  - eapply Z.lt_le_trans; [exact Hhi|]. apply Z.pow_le_mono_r; lia.
Qed.

Lemma be_minimal_spec v :
  0 < v ->
  be_value (be_minimal v) = v /\
  be_minimal v <> [] /\
  hd 0 (be_minimal v) <> 0.
Proof.
  intros Hv. unfold be_minimal.
  replace (v <=? 0) with false by (symmetry; apply Z.leb_gt; lia).
  pose proof (be_minimal_bounds v Hv) as [Hlo Hhi]. cbn zeta in *.
  assert (Hn : Z.to_nat (Z.log2 v / 8 + 1) = S (Z.to_nat (Z.log2 v / 8))).
  { pose proof (Z.log2_nonneg v).
    assert (0 <= Z.log2 v / 8) by (apply Z.div_pos; lia). lia. }
  rewrite Hn. set (n := Z.to_nat (Z.log2 v / 8)) in *.
  split; [|split].
  - rewrite be_value_be_fixed by lia. apply Z.mod_small. lia.
  - intros E. apply (f_equal length) in E. rewrite length_be_fixed in E.
    discriminate.
  - rewrite hd_be_fixed by lia.
    assert (Hp : 0 < 256 ^ Z.of_nat n) by (apply Z.pow_pos_nonneg; lia).
    rewrite Z.mod_small.
    + assert (1 <= v / 256 ^ Z.of_nat n); [|lia].
      apply Z.div_le_lower_bound; lia.
    + split; [apply Z.div_pos; lia|].
      apply Z.div_lt_upper_bound; [lia|].
      rewrite Nat2Z.inj_succ, Z.pow_succ_r in Hhi by lia. lia.
Qed.

Lemma toBeHex_is_Some value : is_Some (toBeHex value) <-> acceptable value.
Proof.
  unfold toBeHex, getUint, acceptable. destruct value as [n|n|].
  - destruct ((0 <=? n) && (n <=? MAX_SAFE_INTEGER)) eqn:E; cbn.
    + apply andb_true_iff in E as [E1 E2].
      apply Z.leb_le in E1, E2. split; [done|by eexists].
    + split; [intros [? [=]]|]. intros [H0 H1].
      apply andb_false_iff in E as [E|E]; apply Z.leb_gt in E; lia.
  - destruct (0 <=? n) eqn:E; cbn.
    + apply Z.leb_le in E. split; [done|by eexists].
    + apply Z.leb_gt in E. split; [intros [? [=]]|lia].
  - cbn. split; [intros [? [=]]|done].
Qed.

(** What [toBeHex] returns: octets that denote the number, without a
    leading zero, the lone 0x00 for zero apart. *)
Lemma toBeHex_spec value b :
  toBeHex value = Some b ->
  getUint value = Some (be_value b) /\
  no_leading_zero b /\
  (b = [0] <-> getUint value = Some 0).
Proof.
  unfold toBeHex. destruct (getUint value) as [n|] eqn:E; [|discriminate].
  cbn. intros [= <-].
  assert (Hn : 0 <= n).
  { unfold getUint in E. destruct value as [m|m|]; [| |discriminate].
    - destruct (0 <=? m) eqn:E1; [|discriminate]. cbn in E.
      destruct (m <=? MAX_SAFE_INTEGER); [|discriminate].
      injection E as <-. by apply Z.leb_le in E1.
    - destruct (0 <=? m) eqn:E1; [|discriminate].
      injection E as <-. by apply Z.leb_le in E1. }
  destruct (n =? 0) eqn:E0.
  - apply Z.eqb_eq in E0 as ->. repeat split; try done.
  - apply Z.eqb_neq in E0.
    destruct (be_minimal_spec n ltac:(lia)) as (Hv & Hne & Hhd).
    split; [by rewrite Hv|]. split; [split; [exact Hne|done]|].
    split.
    + intros Eb. rewrite Eb in Hhd. done.
    + intros [= ->]. done.
Qed.

End HexFacts.

Section BuilderFailureFacts.
Import Builder.
Context `{Ethers}.

Ltac some_hex :=
  match goal with
  | |- context [mbind _ (toBeHex ?v)] =>
      let x := fresh "x" in
      let E := fresh "E" in
      destruct (proj2 (toBeHex_is_Some v)) as [x E];
      [|rewrite E; cbn [mbind option_bind]]
  end.

(** X13. When [executeERC20Transfer] throws: it returns exactly when the
    chain id is not negative, the two transaction counts are safe
    integers, the fee cap is a non-negative bigint and the tip is one or
    is missing. A missing tip is taken as zero; a missing fee cap makes
    the script throw before anything is signed. *)
Theorem executeERC20Transfer_returns_exactly tokenHolderPk gasPayerPk
    delegate calldata provider :
  (is_Some (executeERC20Transfer tokenHolderPk gasPayerPk delegate calldata
              provider) <->
   0 <= chainId provider /\
   0 <= getTransactionCount provider (address_of tokenHolderPk)
     <= MAX_SAFE_INTEGER /\
   0 <= getTransactionCount provider (address_of gasPayerPk)
     <= MAX_SAFE_INTEGER /\
   acceptable (js_or (maxPriorityFeePerGas (getFeeData provider))
                 (JsBigInt 0)) /\
   acceptable (maxFeePerGas (getFeeData provider))) /\
  (maxFeePerGas (getFeeData provider) = JsNull ->
   executeERC20Transfer tokenHolderPk gasPayerPk delegate calldata provider
   = None) /\
  (maxPriorityFeePerGas (getFeeData provider) = JsNull ->
   acceptable (js_or (maxPriorityFeePerGas (getFeeData provider))
                 (JsBigInt 0))).
Proof.
  assert (Hiff : is_Some (executeERC20Transfer tokenHolderPk gasPayerPk
                            delegate calldata provider) <->
    0 <= chainId provider /\
    0 <= getTransactionCount provider (address_of tokenHolderPk)
      <= MAX_SAFE_INTEGER /\
    0 <= getTransactionCount provider (address_of gasPayerPk)
      <= MAX_SAFE_INTEGER /\
    acceptable (js_or (maxPriorityFeePerGas (getFeeData provider))
                  (JsBigInt 0)) /\
    acceptable (maxFeePerGas (getFeeData provider))).
  { split.
    - intros [b Hb]. apply executeERC20Transfer_inv in Hb
        as (? & ? & ? & ? & ? & ? & H1 & H2 & H3 & _ & H5 & H6 & _).
      repeat split;
        first [ exact (proj1 (toBeHex_is_Some _) (mk_is_Some _ _ H1))
              | apply (proj1 (toBeHex_is_Some _) (mk_is_Some _ _ H2))
              | apply (proj1 (toBeHex_is_Some _) (mk_is_Some _ _ H5))
              | exact (proj1 (toBeHex_is_Some _) (mk_is_Some _ _ H3))
              | exact (proj1 (toBeHex_is_Some _) (mk_is_Some _ _ H6)) ].
    - intros (Hc & Hth & Hgp & Htip & Hfee). unfold executeERC20Transfer.
      some_hex; [exact Hc|]. some_hex; [exact Hth|]. some_hex; [exact Htip|].
      some_hex; [unfold acceptable, MAX_SAFE_INTEGER; lia|].
      some_hex; [exact Hgp|]. some_hex; [exact Hfee|]. by eexists. }
  split; [exact Hiff|]. split.
  - intros Hnull.
    destruct (executeERC20Transfer _ _ _ _ _) as [b|] eqn:E; [|reflexivity].
    exfalso. destruct (proj1 Hiff ltac:(by eexists)) as (_ & _ & _ & _ & Hf).
    by rewrite Hnull in Hf.
  - intros ->. cbn. lia.
Qed.

(** X14. When the self-sponsored scripts throw: they return exactly when
    the chain id is not negative, the wallet's transaction count and its
    successor are safe integers, the gas limit is one, and the tip and
    the fee cap are non-negative bigints. Here a missing tip makes the
    script throw, as does a transaction count of 2^53 - 1. *)
Theorem self_sponsored_returns_exactly gas key delegate calldata provider :
  let count := getTransactionCount provider (address_of key) in
  (is_Some (self_sponsored gas key delegate calldata provider) <->
   0 <= chainId provider /\
   0 <= count /\ count + 1 <= MAX_SAFE_INTEGER /\
   0 <= gas <= MAX_SAFE_INTEGER /\
   acceptable (maxPriorityFeePerGas (getFeeData provider)) /\
   acceptable (maxFeePerGas (getFeeData provider))) /\
  (maxPriorityFeePerGas (getFeeData provider) = JsNull ->
   self_sponsored gas key delegate calldata provider = None) /\
  (count = MAX_SAFE_INTEGER ->
   self_sponsored gas key delegate calldata provider = None).
Proof.
  cbn zeta.
  assert (Hiff : is_Some (self_sponsored gas key delegate calldata provider)
    <->
    0 <= chainId provider /\
    0 <= getTransactionCount provider (address_of key) /\
    getTransactionCount provider (address_of key) + 1 <= MAX_SAFE_INTEGER /\
    0 <= gas <= MAX_SAFE_INTEGER /\
    acceptable (maxPriorityFeePerGas (getFeeData provider)) /\
    acceptable (maxFeePerGas (getFeeData provider))).
  { split.
    - intros [b Hb]. apply self_sponsored_inv in Hb
        as (? & ? & ? & ? & ? & ? & H1 & H2 & H3 & H4 & H5 & H6 & _).
      pose proof (proj1 (toBeHex_is_Some _) (mk_is_Some _ _ H1)) as A1.
      pose proof (proj1 (toBeHex_is_Some _) (mk_is_Some _ _ H2)) as A2.
      pose proof (proj1 (toBeHex_is_Some _) (mk_is_Some _ _ H3)) as A3.
      pose proof (proj1 (toBeHex_is_Some _) (mk_is_Some _ _ H4)) as A4.
      pose proof (proj1 (toBeHex_is_Some _) (mk_is_Some _ _ H5)) as A5.
      pose proof (proj1 (toBeHex_is_Some _) (mk_is_Some _ _ H6)) as A6.
      cbn [acceptable] in A1, A2, A4, A6.
      repeat split; try assumption; lia.
    - intros (Hc & Hn & Hn1 & Hg & Htip & Hfee). unfold self_sponsored.
      some_hex; [exact Hc|]. some_hex; [cbn; lia|]. some_hex; [exact Htip|].
      some_hex; [cbn; lia|]. some_hex; [exact Hfee|]. some_hex; [exact Hg|].
      by eexists. }
  split; [exact Hiff|]. split.
  - intros Hnull.
    destruct (self_sponsored _ _ _ _ _) as [b|] eqn:E; [|reflexivity].
    exfalso.
    destruct (proj1 Hiff ltac:(by eexists)) as (_ & _ & _ & _ & Ht & _).
    by rewrite Hnull in Ht.
  - intros Hmax.
    destruct (self_sponsored _ _ _ _ _) as [b|] eqn:E; [|reflexivity].
    exfalso.
    destruct (proj1 Hiff ltac:(by eexists)) as (_ & _ & Hn & _). lia.
Qed.

(** X15. The fields the scripts normalise are never the octet 0x00. In
    every build the tip field is empty exactly when the tip is zero (or
    missing, in [executeERC20Transfer]) and is otherwise the octets
    [toBeHex] gives for the tip, which start with a non-zero octet; in
    both cases it denotes the tip. The value field and the access list
    are empty, and the y-parity of the authorization is empty or the
    octet 0x01. *)
Theorem normalised_fields_are_canonical :
  (forall tokenHolderPk gasPayerPk delegate calldata provider b,
     executeERC20Transfer tokenHolderPk gasPayerPk delegate calldata provider
     = Some b ->
     let value := js_or (maxPriorityFeePerGas (getFeeData provider))
                    (JsBigInt 0) in
     (exists tip,
        txData b !! 2%nat = Some (RlpData tip) /\
        tip <> [0] /\
        getUint value = Some (be_value tip) /\
        (tip = [] <-> getUint value = Some 0) /\
        (getUint value <> Some 0 ->
         toBeHex value = Some tip /\ hd 0 tip <> 0)) /\
     txData b !! 6%nat = Some (RlpData []) /\
     txData b !! 8%nat = Some (RlpArray []) /\
     (authorization_yParity b = [] \/ authorization_yParity b = [1])) /\
  (forall gas key delegate calldata provider b,
     self_sponsored gas key delegate calldata provider = Some b ->
     let value := maxPriorityFeePerGas (getFeeData provider) in
     (exists tip,
        txData b !! 2%nat = Some (RlpData tip) /\
        tip <> [0] /\
        getUint value = Some (be_value tip) /\
        (tip = [] <-> getUint value = Some 0) /\
        (getUint value <> Some 0 ->
         toBeHex value = Some tip /\ hd 0 tip <> 0)) /\
     txData b !! 6%nat = Some (RlpData []) /\
     txData b !! 8%nat = Some (RlpArray []) /\
     (authorization_yParity b = [] \/ authorization_yParity b = [1])).
Proof.
  assert (Htip : forall value raw,
    toBeHex value = Some raw ->
    let field := if bool_decide (raw = [0]) then [] else raw in
    field <> [0] /\
    getUint value = Some (be_value field) /\
    (field = [] <-> getUint value = Some 0) /\
    (getUint value <> Some 0 -> toBeHex value = Some field /\ hd 0 field <> 0)).
  { intros value raw E. cbn zeta.
    destruct (toBeHex_spec _ _ E) as (Hv & (Hne & Hhd) & Hz).
    case_bool_decide as Ht.
    - pose proof (proj1 Hz Ht) as H0.
      split; [done|]. split; [exact H0|]. split; [by split|].
      intros Hnz. by destruct Hnz.
    - split; [exact Ht|]. split; [exact Hv|]. split.
      + split; [intros ->; done|]. intros H0. exfalso. by apply Ht, Hz.
      + intros _. split; [exact E|]. intros Hh. by apply Ht, Hhd. }
  assert (Hy : forall sig, yParity_hex sig = [] \/ yParity_hex sig = [1])
    by (intros sig; unfold yParity_hex; destruct (yParity sig =? 0); auto).
  split.
  - intros * Hb. cbn zeta. apply executeERC20Transfer_inv in Hb
      as (? & ? & tip & ? & ? & ? & _ & _ & Ht & _ & _ & _ & ->).
    split; [|split; [reflexivity|split; [reflexivity|apply Hy]]].
    eexists. split; [reflexivity|]. by apply Htip.
  - intros * Hb. cbn zeta. apply self_sponsored_inv in Hb
      as (? & ? & tip & ? & ? & ? & _ & _ & Ht & _ & _ & _ & ->).
    split; [|split; [reflexivity|split; [reflexivity|apply Hy]]].
    eexists. split; [reflexivity|]. by apply Htip.
Qed.

(** X16. The authorization does not cover the calls. In
    [executeERC20Transfer] the authorization, its signed payload and its
    signature depend on the token holder's key, the delegate, the chain
    id and the token holder's transaction count only: with these fixed,
    any calldata, fees and gas payer give the same authorization. *)
Theorem authorization_independent_of_calls tokenHolderPk delegate
    gasPayerPk gasPayerPk' calldata calldata' provider provider' b b' :
  chainId provider' = chainId provider ->
  getTransactionCount provider' (address_of tokenHolderPk)
  = getTransactionCount provider (address_of tokenHolderPk) ->
  executeERC20Transfer tokenHolderPk gasPayerPk delegate calldata provider
  = Some b ->
  executeERC20Transfer tokenHolderPk gasPayerPk' delegate calldata' provider'
  = Some b' ->
  encodedAuthorizationData b' = encodedAuthorizationData b /\
  authorizationDataHash b' = authorizationDataHash b /\
  txData b' !! 9%nat = txData b !! 9%nat /\
  txData b' !! 5%nat = txData b !! 5%nat.
Proof.
  intros Hc Hn Hb Hb'.
  apply executeERC20Transfer_inv in Hb
    as (c & n & ? & ? & ? & ? & H1 & H2 & _ & _ & _ & _ & ->).
  apply executeERC20Transfer_inv in Hb'
    as (c' & n' & ? & ? & ? & ? & H1' & H2' & _ & _ & _ & _ & ->).
  rewrite Hc, H1 in H1'. rewrite Hn, H2 in H2'.
  injection H1' as <-. injection H2' as <-. by repeat split.
Qed.

(** X17. The numeric fields carry the numbers read from the network. In
    every build the chain id, nonce, fee cap and gas limit fields of the
    transaction denote, big-endian, the chain id, the sender's
    transaction count, the fee cap and the gas limit; the chain id of
    the authorization denotes the chain id, and its nonce the token
    holder's transaction count, or the wallet's plus one in the
    self-sponsored scripts. None of these fields has a leading zero
    octet, the lone 0x00 of a zero apart. *)
Theorem numeric_fields_round_trip :
  (forall tokenHolderPk gasPayerPk delegate calldata provider b,
     executeERC20Transfer tokenHolderPk gasPayerPk delegate calldata provider
     = Some b ->
     be_value (authorization_chainId b) = chainId provider /\
     no_leading_zero (authorization_chainId b) /\
     be_value (authorization_nonce b)
     = getTransactionCount provider (address_of tokenHolderPk) /\
     no_leading_zero (authorization_nonce b) /\
     exists c n f g,
       txData b !! 0%nat = Some (RlpData c) /\
       be_value c = chainId provider /\ no_leading_zero c /\
       txData b !! 1%nat = Some (RlpData n) /\
       be_value n = getTransactionCount provider (address_of gasPayerPk) /\
       no_leading_zero n /\
       txData b !! 3%nat = Some (RlpData f) /\
       getUint (maxFeePerGas (getFeeData provider)) = Some (be_value f) /\
       no_leading_zero f /\
       txData b !! 4%nat = Some (RlpData g) /\
       be_value g = 300000 /\ no_leading_zero g) /\
  (forall gas key delegate calldata provider b,
     self_sponsored gas key delegate calldata provider = Some b ->
     be_value (authorization_chainId b) = chainId provider /\
     no_leading_zero (authorization_chainId b) /\
     be_value (authorization_nonce b)
     = getTransactionCount provider (address_of key) + 1 /\
     no_leading_zero (authorization_nonce b) /\
     hd 0 (authorization_nonce b) <> 0 /\
     exists c n f g,
       txData b !! 0%nat = Some (RlpData c) /\
       be_value c = chainId provider /\ no_leading_zero c /\
       txData b !! 1%nat = Some (RlpData n) /\
       be_value n = getTransactionCount provider (address_of key) /\
       no_leading_zero n /\
       txData b !! 3%nat = Some (RlpData f) /\
       getUint (maxFeePerGas (getFeeData provider)) = Some (be_value f) /\
       no_leading_zero f /\
       txData b !! 4%nat = Some (RlpData g) /\
       be_value g = gas /\ no_leading_zero g).
Proof.
  assert (Hnum : forall n x, toBeHex (JsNumber n) = Some x ->
            be_value x = n /\ no_leading_zero x /\ (x = [0] <-> n = 0)).
  { intros n x E. destruct (toBeHex_spec _ _ E) as (Hv & Hc & Hz).
    unfold getUint in Hv, Hz.
    destruct ((0 <=? n) && (n <=? MAX_SAFE_INTEGER)); [|discriminate].
    injection Hv as Hv. split; [done|]. split; [done|].
    rewrite Hz. split; [by intros [= ->]|by intros ->]. }
  assert (Hbig : forall n x, toBeHex (JsBigInt n) = Some x ->
            be_value x = n /\ no_leading_zero x).
  { intros n x E. destruct (toBeHex_spec _ _ E) as (Hv & Hc & _).
    unfold getUint in Hv. destruct (0 <=? n); [|discriminate].
    injection Hv as Hv. by split. }
  split.
  - intros * Hb. apply executeERC20Transfer_inv in Hb
      as (c & n & ? & g & m & f & H1 & H2 & _ & H4 & H5 & H6 & ->).
    destruct (Hbig _ _ H1) as (Hc1 & Hc2).
    destruct (Hnum _ _ H2) as (Hn1 & Hn2 & _).
    destruct (Hnum _ _ H4) as (Hg1 & Hg2 & _).
    destruct (Hnum _ _ H5) as (Hm1 & Hm2 & _).
    destruct (toBeHex_spec _ _ H6) as (Hf1 & Hf2 & _).
    split; [exact Hc1|]. split; [exact Hc2|].
    split; [exact Hn1|]. split; [exact Hn2|].
    exists c, m, f, g.
    repeat (split; [first [reflexivity|assumption]|]). assumption.
  - intros * Hb. apply self_sponsored_inv in Hb
      as (c & n & ? & m & f & g & H1 & H2 & _ & H4 & H5 & H6 & ->).
    destruct (Hbig _ _ H1) as (Hc1 & Hc2).
    destruct (Hnum _ _ H2) as (Hn1 & Hn2 & Hn3).
    destruct (Hnum _ _ H4) as (Hm1 & Hm2 & _).
    destruct (Hnum _ _ H6) as (Hg1 & Hg2 & _).
    destruct (toBeHex_spec _ _ H5) as (Hf1 & Hf2 & _).
    split; [exact Hc1|]. split; [exact Hc2|].
    split; [exact Hn1|]. split; [exact Hn2|]. split.
    + intros Hh. destruct Hn2 as (_ & Hn2). specialize (Hn2 Hh).
      apply Hn3 in Hn2.
      assert (0 <= getTransactionCount provider (address_of key)).
      { pose proof (proj1 (toBeHex_is_Some _) (mk_is_Some _ _ H4)) as A.
        cbn in A. lia. }
      lia.
    + exists c, m, f, g.
      repeat (split; [first [reflexivity|assumption]|]). assumption.
Qed.

End BuilderFailureFacts.

(** ** Further runs on concrete inputs *)

Section TokenLedgerRuns.
Import Token.

(** Account 1 holds 100 after deployment and sends 30. *)
Lemma transfer_exact_witness :
  succeeds (transfer (scenario_env 1000) 2 30) scenario_deployed /\
  fails_with (transfer (scenario_env 1000) 2 101) scenario_deployed
    "BALANCE".
Proof.
  destruct (transfer_exact (scenario_env 1000) 2 30 scenario_deployed)
    as (Hiff & _).
  destruct (transfer_exact (scenario_env 1000) 2 101 scenario_deployed)
    as (_ & Hshort & _).
  split.
  - apply Hiff. apply Z.leb_le. vm_compute. reflexivity.
  - apply Hshort. apply Z.ltb_lt. vm_compute. reflexivity.
Defined.

(** Nobody has approved anything yet. *)
Lemma transferFrom_exact_witness :
  fails_with (transferFrom (scenario_env 1000) 1 2 30) scenario_deployed
    "ALLOWANCE".
Proof.
  destruct (transferFrom_exact (scenario_env 1000) 1 2 30
              scenario_deployed) as (Hlow & _).
  apply Hlow. apply Z.ltb_lt. vm_compute. reflexivity.
Defined.

(** Account 1 approves 50 for account 4, which then moves 30 of them. *)
Lemma approve_then_transferFrom_witness :
  succeeds
    (transferFrom (with_sender (scenario_env 1000) 4)
       (msg_sender (scenario_env 1000)) 2 30)
    (commit (approve (scenario_env 1000) 4 50) scenario_deployed).
Proof.
  pose proof (approve_then_transferFrom (scenario_env 1000)
                (with_sender (scenario_env 1000) 4) 4 2 50 30
                scenario_deployed eq_refl) as Hw.
  cbn zeta in Hw. destruct Hw as (_ & _ & _ & Hiff & _).
  apply Hiff. split; [lia|]. apply Z.leb_le. vm_compute. reflexivity.
Defined.

Lemma allowance_changes_only_by_owner_or_spender_witness :
  (exists value, CallApprove 4 50 = CallApprove 4 value /\
                 msg_sender (scenario_env 1000) = 1) \/
  (exists to value,
     CallApprove 4 50 = CallTransferFrom 1 to value /\
     msg_sender (scenario_env 1000) = 4 /\
     allowed_of (@step toy (scenario_env 1000) (CallApprove 4 50)
                   scenario_deployed) 1 4
     = allowed_of scenario_deployed 1 4 - value).
Proof.
  apply (@allowance_changes_only_by_owner_or_spender toy).
  vm_compute. discriminate.
Defined.

Lemma transferWithAuthorization_relayed_witness :
  @transferWithAuthorization toy (with_sender (scenario_env 1000) 9)
    1 2 25 940 4600 77 27 1 scenario_digest scenario_deployed
  = scenario_transfer 1000 scenario_deployed.
Proof.
  apply (@transferWithAuthorization_relayed toy (scenario_env 1000)
           (with_sender (scenario_env 1000) 9)).
  reflexivity.
Defined.

Lemma transferWithAuthorization_frame_witness :
  allowance scenario_used = allowance scenario_deployed /\
  events scenario_used
  = events scenario_deployed ++ [AuthorizationUsed 1 77; Transfer 1 2 25].
Proof.
  destruct (@transferWithAuthorization_frame toy (scenario_env 1000)
              1 2 25 940 4600 77 27 1 scenario_digest
              scenario_deployed scenario_used scenario_transfer_runs)
    as (_ & _ & _ & Ha & _ & _ & He).
  by split.
Defined.

Lemma view_digests_are_the_checked_ones_witness :
  succeeds (scenario_transfer 1000) scenario_deployed.
Proof.
  destruct (@view_digests_are_the_checked_ones toy (scenario_env 1000)
              1 2 25 940 4600 77 27 1 scenario_digest scenario_deployed)
    as (_ & _ & Hok & _).
  apply (Hok scenario_digest scenario_deployed).
  - vm_compute. reflexivity.
  - vm_compute. reflexivity.
  - cbn. lia.
  - vm_compute. reflexivity.
  - apply Z.leb_le. vm_compute. reflexivity.
Defined.

Lemma supply_fixed_after_deployment_witness :
  totalSupply
    (@run toy [(scenario_env 1000, CallTransfer 2 30)]
       (@deployed toy (scenario_env 1000) "T" "T" 18 100)) = 100.
Proof.
  apply (@supply_fixed_after_deployment toy (scenario_env 1000)
           "T"%string "T"%string 18 100
           [(scenario_env 1000, CallTransfer 2 30)]).
  - unfold is_uint256, MAX_UINT256. lia.
  - repeat constructor; unfold is_uint256, MAX_UINT256; cbn; lia.
Defined.

Lemma _mint_checked_witness :
  exists st',
    _mint 2 5 scenario_deployed = inr (tt, st') /\
    supply_invariant st' /\
    totalSupply st' = totalSupply scenario_deployed + 5.
Proof.
  destruct (_mint_checked 2 5 scenario_deployed
              scenario_deployed_invariant) as (_ & Hok).
  - unfold is_uint256, MAX_UINT256. lia.
  - destruct Hok as (st' & E & Hi & Ht & _).
    + apply Z.leb_le. vm_compute. reflexivity.
    + exists st'. auto.
Defined.

End TokenLedgerRuns.

Section TypedDataRuns.
Import Token TypedData.

Lemma scenario_inputs_in_range :
  @inputs_in_range toy_signer 60 3600 scenario_inputs.
Proof. unfold inputs_in_range, MAX_UINT256. cbn. lia. Qed.

Lemma toy_signatures_recover : @signatures_recover toy toy_signer.
Proof.
  intros key digest. cbn. unfold toy_ecrecover. by rewrite Z.eqb_refl.
Qed.

Lemma large_supply : is_uint256 (10 ^ 24).
Proof. unfold is_uint256, MAX_UINT256. lia. Qed.

Lemma script_amount : is_uint256 (25 * 10 ^ 18).
Proof. unfold is_uint256, MAX_UINT256. lia. Qed.

(** The script of the scenario signs the digest of the token deployed
    by its wallet. *)
Lemma script_signs_the_contract_digest_witness :
  exists v r s,
    @sign toy_signer (PRIVATE_KEY scenario_inputs)
      (@transfer_digest toy
         (@run toy [] (@deployed toy scenario_env0
                         (token_name scenario_inputs) "T" 18 (10 ^ 24)))
         (@address_of toy_signer (PRIVATE_KEY scenario_inputs))
         (recipient scenario_inputs) (25 * 10 ^ 18)
         (now scenario_inputs - 60) (now scenario_inputs + 3600)
         (nonce scenario_inputs)) = (v, r, s) /\
    @signed_authorization toy toy_signer (25 * 10 ^ 18) 60 3600 scenario_inputs
    = Some (CallTransferWithAuthorization
              (@address_of toy_signer (PRIVATE_KEY scenario_inputs))
              (recipient scenario_inputs) (25 * 10 ^ 18)
              (now scenario_inputs - 60) (now scenario_inputs + 3600)
              (nonce scenario_inputs) v r s).
Proof.
  pose proof (@script_signs_the_contract_digest toy toy_signer
                (25 * 10 ^ 18) 60 3600 scenario_inputs scenario_env0
                "T"%string 18 (10 ^ 24) []
                script_amount scenario_inputs_in_range large_supply
                eq_refl eq_refl) as Hw.
  cbn zeta in Hw. exact (proj2 (proj2 Hw)).
Defined.

(** The call of the scenario, sent by anyone at time 1000, moves the 25
    tokens. *)
Lemma signed_authorization_end_to_end_witness :
  exists c,
    @signed_authorization toy toy_signer (25 * 10 ^ 18) 60 3600 scenario_inputs
    = Some c /\
    moved (@address_of toy_signer (PRIVATE_KEY scenario_inputs))
      (recipient scenario_inputs) (25 * 10 ^ 18)
      (@run toy [] (@deployed toy scenario_env0
                      (token_name scenario_inputs) "T" 18 (10 ^ 24)))
      (@step toy (scenario_env 1000) c
         (@run toy [] (@deployed toy scenario_env0
                         (token_name scenario_inputs) "T" 18 (10 ^ 24)))).
Proof.
  pose proof (@signed_authorization_end_to_end toy toy_signer
                (25 * 10 ^ 18) 60 3600 scenario_inputs scenario_env0
                "T"%string 18 (10 ^ 24) [] (scenario_env 1000)
                script_amount scenario_inputs_in_range large_supply
                eq_refl eq_refl toy_signatures_recover (Forall_nil_2 _))
    as Hw.
  cbn zeta in Hw. destruct Hw as (c & Hc & Hm & _).
  - cbn. lia.
  - vm_compute. reflexivity.
  - apply Z.leb_le. vm_compute. reflexivity.
  - exists c. by split.
Defined.

End TypedDataRuns.

Section BuilderMoreRuns.
Import Builder.

Lemma executeERC20Transfer_returns_exactly_witness :
  @executeERC20Transfer toy [1] [2] scenario_delegate [1; 2; 3]
    scenario_provider_no_fee_cap = None.
Proof.
  destruct (@executeERC20Transfer_returns_exactly toy [1] [2]
              scenario_delegate [1; 2; 3] scenario_provider_no_fee_cap)
    as (_ & Hnull & _).
  apply Hnull. reflexivity.
Defined.

Lemma self_sponsored_returns_exactly_witness :
  @part_000 toy [1] scenario_delegate [1; 2; 3] scenario_provider_no_tip
  = None.
Proof.
  pose proof (@self_sponsored_returns_exactly toy 10000000 [1]
                scenario_delegate [1; 2; 3] scenario_provider_no_tip) as Hw.
  cbn zeta in Hw. destruct Hw as (_ & Hnull & _).
  apply Hnull. reflexivity.
Defined.

(** A zero tip is the empty field. *)
Lemma normalised_fields_are_canonical_witness :
  exists b,
    @executeERC20Transfer toy [1] [2] scenario_delegate [1; 2; 3]
      (scenario_provider 5) = Some b /\
    txData b !! 2%nat = Some (RlpData []).
Proof.
  destruct (@executeERC20Transfer_returns toy [1] [2] scenario_delegate
              [1; 2; 3] (scenario_provider 5)) as [b Hb].
  - apply scenario_provider_in_range, small_count_in_range.
  - right. exists 0. split; [reflexivity|lia].
  - exists b. split; [exact Hb|].
    destruct (@normalised_fields_are_canonical toy) as (Hs & _).
    destruct (Hs _ _ _ _ _ _ Hb) as ((tip & Ht & _ & _ & Hz & _) & _).
    rewrite Ht. f_equal. f_equal. by apply Hz.
Defined.

(** Another gas payer and other calls, the same authorization. *)
Lemma authorization_independent_of_calls_witness :
  exists b b',
    @executeERC20Transfer toy [1] [2] scenario_delegate [1; 2; 3]
      (scenario_provider 5) = Some b /\
    @executeERC20Transfer toy [1] [4] scenario_delegate [7; 7]
      scenario_provider_no_tip = Some b' /\
    encodedAuthorizationData b' = encodedAuthorizationData b /\
    txData b' !! 9%nat = txData b !! 9%nat.
Proof.
  destruct (@executeERC20Transfer_returns toy [1] [2] scenario_delegate
              [1; 2; 3] (scenario_provider 5)) as [b Hb].
  { apply scenario_provider_in_range, small_count_in_range. }
  { right. exists 0. split; [reflexivity|lia]. }
  destruct (@executeERC20Transfer_returns toy [1] [4] scenario_delegate
              [7; 7] scenario_provider_no_tip) as [b' Hb'].
  { split; [intros a; exact small_count_in_range|].
    split; [cbn; lia|]. exists 7. split; [reflexivity|lia]. }
  { by left. }
  exists b, b'. split; [exact Hb|]. split; [exact Hb'|].
  destruct (@authorization_independent_of_calls toy [1] scenario_delegate
              [2] [4] [1; 2; 3] [7; 7] (scenario_provider 5)
              scenario_provider_no_tip b b' eq_refl eq_refl Hb Hb')
    as (H1 & _ & H3 & _).
  by split.
Defined.

Lemma numeric_fields_round_trip_witness :
  exists b,
    @part_000 toy [1] scenario_delegate [1; 2; 3] (scenario_provider 5)
    = Some b /\
    be_value (authorization_nonce b) = 6.
Proof.
  destruct (@self_sponsored_returns toy 10000000 [1] scenario_delegate
              [1; 2; 3] (scenario_provider 5)) as [b Hb].
  - unfold MAX_SAFE_INTEGER. lia.
  - apply scenario_provider_in_range, small_count_in_range.
  - exists 0. split; [reflexivity|lia].
  - exists b. split; [exact Hb|].
    destruct (@numeric_fields_round_trip toy) as (_ & Hs).
    by destruct (Hs _ _ _ _ _ _ Hb) as (_ & _ & -> & _).
Defined.

End BuilderMoreRuns.

(** ** Part II, further facts: the nonce of the authorization *)

Section NonceFacts.
Import Builder.
Context `{Ethers}.

Lemma toBeHex_number n x :
  toBeHex (JsNumber n) = Some x -> be_value x = n.
Proof.
  intros E. destruct (toBeHex_spec _ _ E) as (Hv & _).
  unfold getUint in Hv.
  destruct ((0 <=? n) && (n <=? MAX_SAFE_INTEGER)); [|discriminate].
  by injection Hv as Hv.
Qed.

(** C7, on the code. Run in its role, with a gas payer other than the
    token holder, [executeERC20Transfer] embeds and signs the nonce the
    authorizer has when the authorization is processed, and so do the
    self-sponsored scripts, which add one for the transaction the wallet
    sends itself: one rule at all call sites. Run with the one account in
    both roles, [executeERC20Transfer] misses the increment: it embeds
    the very nonce its own transaction takes, one short of the rule and
    of what the self-sponsored scripts embed for the same account. *)
Theorem authorization_nonce_at_execution :
  (forall tokenHolderPk gasPayerPk delegate calldata provider b,
     address_of tokenHolderPk <> address_of gasPayerPk ->
     executeERC20Transfer tokenHolderPk gasPayerPk delegate calldata provider
     = Some b ->
     toBeHex (JsNumber (nonce_at_execution provider
                          (address_of tokenHolderPk)
                          (address_of gasPayerPk)))
     = Some (authorization_nonce b) /\
     be_value (authorization_nonce b)
     = nonce_at_execution provider (address_of tokenHolderPk)
         (address_of gasPayerPk) /\
     authorization_signed tokenHolderPk b) /\
  (forall gas key delegate calldata provider b,
     self_sponsored gas key delegate calldata provider = Some b ->
     toBeHex (JsNumber (nonce_at_execution provider
                          (address_of key) (address_of key)))
     = Some (authorization_nonce b) /\
     be_value (authorization_nonce b)
     = nonce_at_execution provider (address_of key) (address_of key) /\
     authorization_signed key b /\
     exists nonce,
       txData b !! 1%nat = Some (RlpData nonce) /\
       be_value nonce = getTransactionCount provider (address_of key)) /\
  (forall tokenHolderPk gasPayerPk delegate calldata provider b,
     address_of tokenHolderPk = address_of gasPayerPk ->
     executeERC20Transfer tokenHolderPk gasPayerPk delegate calldata provider
     = Some b ->
     be_value (authorization_nonce b)
     = nonce_at_execution provider (address_of tokenHolderPk)
         (address_of gasPayerPk) - 1 /\
     txData b !! 1%nat = Some (RlpData (authorization_nonce b)) /\
     authorization_signed tokenHolderPk b /\
     forall gas delegate' calldata' b',
       self_sponsored gas tokenHolderPk delegate' calldata' provider
       = Some b' ->
       be_value (authorization_nonce b')
       = be_value (authorization_nonce b) + 1).
Proof.
  split; [|split].
  - intros * Hne Hb. unfold nonce_at_execution.
    rewrite bool_decide_eq_false_2 by assumption. rewrite Z.add_0_r.
    apply executeERC20Transfer_inv in Hb
      as (? & n & ? & ? & ? & ? & _ & Hn & _ & _ & _ & _ & ->).
    split; [exact Hn|]. split; [exact (toBeHex_number _ _ Hn)|].
    apply assemble_authorization_signed.
  - intros * Hb. unfold nonce_at_execution.
    rewrite bool_decide_eq_true_2 by reflexivity.
    apply self_sponsored_inv in Hb
      as (? & n & ? & m & ? & ? & _ & Hn & _ & Hm & _ & _ & ->).
    split; [exact Hn|]. split; [exact (toBeHex_number _ _ Hn)|].
    split; [apply assemble_authorization_signed|].
    exists m. split; [reflexivity|]. exact (toBeHex_number _ _ Hm).
  - intros * Heq Hb. unfold nonce_at_execution.
    rewrite bool_decide_eq_true_2 by assumption.
    apply executeERC20Transfer_inv in Hb
      as (? & n & ? & ? & m & ? & _ & Hn & _ & _ & Hm & _ & ->).
    rewrite <- Heq, Hn in Hm. injection Hm as <-.
    pose proof (toBeHex_number _ _ Hn) as Hv.
    split; [cbn [assemble authorization_nonce]; lia|].
    split; [reflexivity|]. split; [apply assemble_authorization_signed|].
    intros gas delegate' calldata' b' Hb'.
    apply self_sponsored_inv in Hb'
      as (? & n' & ? & ? & ? & ? & _ & Hn' & _ & _ & _ & _ & ->).
    cbn [assemble authorization_nonce].
    rewrite (toBeHex_number _ _ Hn'), Hv. reflexivity.
Qed.

End NonceFacts.

Section NonceRuns.
Import Builder.

Lemma scenario_roles_differ :
  @address_of toy_wallets [1] <> @address_of toy_wallets [2].
Proof. vm_compute. discriminate. Qed.

Lemma scenario_two_accounts_in_range : provider_in_range scenario_two_accounts.
Proof.
  split; [|split; [cbn; lia|exists 7; split; [reflexivity|lia]]].
  intros a. cbn [getTransactionCount scenario_two_accounts].
  unfold MAX_SAFE_INTEGER. case_bool_decide; lia.
Qed.

Lemma scenario_two_accounts_tip : tip_is_bigint_or_null scenario_two_accounts.
Proof. right. exists 0. split; [reflexivity|lia]. Qed.

(** Key 1 has sent five transactions. Authorizing for the gas payer of
    key 2 it signs nonce 5, the nonce it has when the authorization is
    processed. Paying for itself through the same script it signs 5
    again, the nonce its own transaction takes, where the rule gives 6. *)
Lemma authorization_nonce_at_execution_witness :
  (exists b,
     @executeERC20Transfer toy_wallets [1] [2] scenario_delegate [1; 2; 3]
       scenario_two_accounts = Some b /\
     be_value (authorization_nonce b)
     = @nonce_at_execution scenario_two_accounts
         (@address_of toy_wallets [1]) (@address_of toy_wallets [2])) /\
  (exists b,
     @executeERC20Transfer toy_wallets [1] [1] scenario_delegate [1; 2; 3]
       scenario_two_accounts = Some b /\
     be_value (authorization_nonce b)
     = @nonce_at_execution scenario_two_accounts
         (@address_of toy_wallets [1]) (@address_of toy_wallets [1]) - 1 /\
     txData b !! 1%nat = Some (RlpData (authorization_nonce b))) /\
  @nonce_at_execution scenario_two_accounts
    (@address_of toy_wallets [1]) (@address_of toy_wallets [2]) = 5 /\
  @nonce_at_execution scenario_two_accounts
    (@address_of toy_wallets [1]) (@address_of toy_wallets [1]) = 6.
Proof.
  destruct (@authorization_nonce_at_execution toy_wallets) as (H1 & _ & H3).
  split; [|split; [|split; vm_compute; reflexivity]].
  - destruct (@executeERC20Transfer_returns toy_wallets [1] [2]
                scenario_delegate [1; 2; 3] scenario_two_accounts
                scenario_two_accounts_in_range scenario_two_accounts_tip)
      as [b Hb].
    exists b. split; [exact Hb|].
    by destruct (H1 _ _ _ _ _ _ scenario_roles_differ Hb) as (_ & ? & _).
  - destruct (@executeERC20Transfer_returns toy_wallets [1] [1]
                scenario_delegate [1; 2; 3] scenario_two_accounts
                scenario_two_accounts_in_range scenario_two_accounts_tip)
      as [b Hb].
    exists b. split; [exact Hb|].
    destruct (H3 _ _ _ _ _ _ eq_refl Hb) as (? & ? & _). by split.
Defined.

End NonceRuns.
